(** * Paper-trading simulator ([tms.py]): market clock, positions, broker

    A shallow embedding of the classes [Market], [Position],
    [BrokerAccount] and [Broker] of [tms.py], followed by the properties
    of the engine stated in the specification.

    Modelling choices.
    - Money, prices and units are exact rationals ([Q], compared with
      [==]); the rounding of Python floats is outside the model.
    - Python objects that are shared and mutated through several
      references ([Position] instances: the caller's handle, the
      account's [positions] list and its [history] list all point to the
      same object) live in an explicit store; a reference is an index
      into it.
    - A method is a function from the state before the call to the state
      after it together with the outcome: a returned value or the
      exception raised.  A raised exception does not undo the
      assignments executed before it. *)

From Stdlib Require Import QArith Lqa ZArith.
From stdpp Require Import gmap strings list fin_maps.

(** ** Outcomes *)

(** The exceptions the code can raise.  The first six are the
    [Exception(msg)] objects built by the engine itself, named after
    their message; the others are raised by the Python runtime. *)
Inductive exn : Type :=
  | AccountAlreadyExists        (* 'Account already exists!' *)
  | AccountDoesNotExist         (* 'Account does not exist!' *)
  | SymbolNotInMarket           (* 'Symbol not in market!' *)
  | NotEnoughMoney              (* 'Not enough money available in account!' *)
  | PositionTypeMustBeBuyOrSell (* 'Position type must be buy or sell!' *)
  | OperationTypeNotRecognized  (* 'Operation type not recognized!' *)
  | ZeroDivisionError           (* never raised by the engine, see [py_div] *)
  | TypeError
  | AttributeError
  | KeyError
  | ValueError
  | NameError
  | FeedError                   (* whatever the data provider raises *)
  | DanglingReference.          (* no Python counterpart, see [deref] *)

Inductive result (A : Type) : Type :=
  | Ok (a : A)
  | Raise (e : exn).
Arguments Ok {A} a.
Arguments Raise {A} e.

Definition is_ok {A} (r : result A) : bool :=
  match r with Ok _ => true | Raise _ => false end.

(** Timestamps are minutes on the exchange's wall clock. *)
Definition Timestamp : Type := Z.
Bind Scope Z_scope with Timestamp.

(** ** Bars *)

Record Bar : Type := mkBar {
  open : Q;
  high : Q;
  low : Q;
  close : Q
}.

(** One row of the minute-bar frame: a series named by its timestamp and
    indexed by symbol. *)
Record Barset : Type := mkBarset {
  name : Timestamp;
  columns : gmap string Bar
}.

(** ** class Market *)

Module Market.

(** The provider call [get_barset(symbols, '1Min', start, end).df]. *)
Definition Api : Type :=
  list string → Timestamp → Timestamp → result (list Barset).

Record t : Type := mk {
  _api : Api;
  symbols : list string;
  _bars : list Barset;
  i : nat
}.

Definition set_i (m : t) (k : nat) : t :=
  {| _api := _api m; symbols := symbols m; _bars := _bars m; i := k |}.

Definition set_bars (m : t) (bars : list Barset) : t :=
  {| _api := _api m; symbols := symbols m; _bars := bars; i := i m |}.

Definition floor_day (d : Timestamp) : Timestamp := (1440 * (d / 1440))%Z.

(** [load_day]: [now] is the reading of [pd.Timestamp.now].  The
    attribute [_bars] is emptied before the provider is called, and
    [i] is reset only after the call returned. *)
Definition load_day (now : Timestamp) (m : t) (date : option Timestamp)
  : t * result unit :=
  let m0 := set_bars m [] in
  let date := floor_day (match date with None => now | Some d => d end) in
  let market_open := (date + 570)%Z in
  let market_close := (date + 960)%Z in
  let today := date in
  let tomorrow := (date + 1440)%Z in
  match _api m (symbols m) today tomorrow with
  | Raise e => (m0, Raise e)
  | Ok data =>
      let bars :=
        filter (λ row, (market_open ≤ name row ∧ name row ≤ market_close)%Z)
               data in
      (set_i (set_bars m0 bars) 0, Ok tt)
  end.

(** [Market.__init__] *)
Definition init (now : Timestamp) (api : Api) (symbols : list string)
    (date : option Timestamp) : result t :=
  let m := {| _api := api; symbols := symbols; _bars := []; i := 0 |} in
  match load_day now m date with
  | (m', Ok _) => Ok m'
  | (_, Raise e) => Raise e
  end.

Definition next_barset (m : t) : t * option Barset :=
  if (length (_bars m) <=? i m)%nat then (m, None)
  else
    let new_bar := _bars m !! i m in
    (set_i m (i m + 1)%nat, new_bar).

Definition curr_barset (m : t) : option Barset :=
  if (length (_bars m) <=? i m)%nat then None
  else _bars m !! i m.

(** [reset]: the branch for a given date calls the bare name
    [load_day], which is neither a local nor a module-level name, so
    the call raises [NameError] before anything is evaluated. *)
Definition reset (m : t) (date : option Timestamp) : t * result unit :=
  match date with
  | Some _ => (m, Raise NameError)
  | None => (set_i m 0, Ok tt)
  end.

End Market.

(** ** class Asset *)

Module Asset.

Record t : Type := mk {
  symbol : string;
  spread : Q
}.

End Asset.

(** ** class Position *)

Module Position.

Record t : Type := mk {
  symbol : string;
  open_date : Timestamp;
  position_type : string;
  open_price : Q;
  units : Q;
  sl : option Q;
  tp : option Q;
  close_price : option Q;
  close_date : option Timestamp
}.

(** [Position.__init__] stores its arguments; it has no [raise]. *)
Definition init (symbol : string) (open_date : Timestamp)
    (position_type : string) (open_price units : Q) (sl tp : option Q)
    (close_price : option Q) (close_date : option Timestamp) : result t :=
  Ok (mk symbol open_date position_type open_price units sl tp
         close_price close_date).

Definition set_close_price (self : t) (c : option Q) : t :=
  mk (symbol self) (open_date self) (position_type self) (open_price self)
     (units self) (sl self) (tp self) c (close_date self).

Definition set_close_date (self : t) (d : option Timestamp) : t :=
  mk (symbol self) (open_date self) (position_type self) (open_price self)
     (units self) (sl self) (tp self) (close_price self) d.

Definition get_profit (self : t) (price : Q) : result Q :=
  let price := match close_price self with
               | Some c => c
               | None => price
               end in
  if decide (position_type self = "buy") then
    Ok (units self * (price - open_price self))%Q
  else if decide (position_type self = "sell") then
    Ok (units self * (- price + open_price self))%Q
  else Raise OperationTypeNotRecognized.

Definition get_valuation (self : t) (price : Q) : result Q :=
  match get_profit self price with
  | Ok profit => Ok (units self * open_price self + profit)%Q
  | Raise e => Raise e
  end.

End Position.

(** ** class BrokerAccount *)

(** A reference to a [Position] object: its index in the store. *)
Abbreviation ref := nat (only parsing).

Module BrokerAccount.

Record t : Type := mk {
  name : string;
  available : Q;
  positions : list ref;
  history : list ref
}.

Definition init (name : string) (available : Q)
    (positions history : option (list ref)) : t :=
  let positions := match positions with None => [] | Some l => l end in
  let history := match history with None => [] | Some l => l end in
  mk name available positions history.

Definition set_available (a : t) (q : Q) : t :=
  mk (name a) q (positions a) (history a).

Definition set_positions (a : t) (l : list ref) : t :=
  mk (name a) (available a) l (history a).

Definition set_history (a : t) (l : list ref) : t :=
  mk (name a) (available a) (positions a) l.

End BrokerAccount.

(** [list.remove(x)]: drops the first occurrence, [ValueError] (here
    [None]) when there is none.  Positions define no [__eq__], so the
    comparison is object identity. *)
Fixpoint list_remove (x : ref) (l : list ref) : option (list ref) :=
  match l with
  | [] => None
  | y :: l' =>
      if decide (y = x) then Some l'
      else match list_remove x l' with
           | Some l'' => Some (y :: l'')
           | None => None
           end
  end.

(** [value / open_price].  The divisor is a numpy float read from the
    bar frame, so the division never raises: on a zero divisor numpy
    gives [inf] or [nan] with a warning, and the method goes on.  The
    rationals have no such value; the quotient carried here on a zero
    divisor ([x / 0] is [0] in [Q]) stands for none.  What is proved of
    the value of [units] is proved for a price other than 0; at a price
    of 0 only that [units * 0] is not a requested cash other than 0,
    which is so for [inf] and [nan] as well. *)
Definition py_div (x y : Q) : result Q := Ok (x / y)%Q.

(** [x < y] on rationals, as a test. *)
Definition Qltb (x y : Q) : bool :=
  (Qnum x * QDen y <? Qnum y * QDen x)%Z.

Definition is_None {A} (o : option A) : bool :=
  match o with None => true | Some _ => false end.

(** ** class Broker *)

Module Broker.

(** The attributes of a [Broker], and the store of the [Position]
    objects it hands out. *)
Record t : Type := mk {
  assets : list Asset.t;
  assets_spread : gmap string Q;
  market : Market.t;
  accounts : gmap string BrokerAccount.t;
  store : list Position.t
}.

Definition set_market (b : t) (m : Market.t) : t :=
  mk (assets b) (assets_spread b) m (accounts b) (store b).

Definition set_accounts (b : t) (a : gmap string BrokerAccount.t) : t :=
  mk (assets b) (assets_spread b) (market b) a (store b).

Definition set_store (b : t) (s : list Position.t) : t :=
  mk (assets b) (assets_spread b) (market b) (accounts b) s.

(** *** Statements: state passing with exceptions *)

Definition Py (A : Type) : Type := t → t * result A.

Definition ret {A} (a : A) : Py A := λ b, (b, Ok a).

Definition raise {A} (e : exn) : Py A := λ b, (b, Raise e).

Definition bind {A B} (c : Py A) (k : A → Py B) : Py B :=
  λ b, match c b with
       | (b', Ok a) => k a b'
       | (b', Raise e) => (b', Raise e)
       end.

Notation "x <- c ;; k" := (bind c (λ x, k))
  (at level 20, c at level 99, k at level 200, only parsing).
Notation "c ;; k" := (bind c (λ _, k))
  (at level 100, k at level 200, right associativity, only parsing).

Definition gets {A} (f : t → A) : Py A := λ b, (b, Ok (f b)).

Definition modify (f : t → t) : Py unit := λ b, (f b, Ok tt).

Definition lift {A} (r : result A) : Py A := λ b, (b, r).

(** [if cond: raise e] *)
Definition raise_if (cond : bool) (e : exn) : Py unit :=
  if cond then raise e else ret tt.

(** [self.accounts.get(name)] *)
Definition accounts_get (name : string) : Py (option BrokerAccount.t) :=
  gets (λ b, accounts b !! name).

(** [self.accounts.get(name).attr]: on [None] the attribute access
    raises [AttributeError]. *)
Definition account_attr {A} (name : string) (attr : BrokerAccount.t → A)
  : Py A :=
  a <- accounts_get name ;;
  match a with
  | Some acc => ret (attr acc)
  | None => raise AttributeError
  end.

(** [self.accounts.get(name).attr = f(self.accounts.get(name))] *)
Definition account_assign (name : string)
    (f : BrokerAccount.t → BrokerAccount.t) : Py unit :=
  acc <- account_attr name id ;;
  modify (λ b, set_accounts b (<[name := f acc]> (accounts b))).

(** [self.assets_spread.get(symbol)] *)
Definition spread_get (symbol : string) : Py (option Q) :=
  gets (λ b, assets_spread b !! symbol).

(** [self.market.curr_barset()] *)
Definition market_curr_barset : Py (option Barset) :=
  gets (λ b, Market.curr_barset (market b)).

(** [symbol not in barset]: [TypeError] when [barset] is [None]. *)
Definition not_in (symbol : string) (barset : option Barset) : Py bool :=
  match barset with
  | None => raise TypeError
  | Some row => ret (is_None (columns row !! symbol))
  end.

(** [barset[symbol]['close']] *)
Definition subscript_close (barset : option Barset) (symbol : string)
  : Py Q :=
  match barset with
  | None => raise TypeError
  | Some row =>
      match columns row !! symbol with
      | None => raise KeyError
      | Some bar => ret (close bar)
      end
  end.

(** [barset.name] *)
Definition attr_name (barset : option Barset) : Py Timestamp :=
  match barset with
  | None => raise AttributeError
  | Some row => ret (name row)
  end.

(** [price + self.assets_spread.get(symbol)]: adding [None] to a number
    raises [TypeError]. *)
Definition plus_spread (price : Q) (symbol : string) : Py Q :=
  s <- spread_get symbol ;;
  match s with
  | None => raise TypeError
  | Some s => ret (price + s)%Q
  end.

(** Reading through a reference.  A reference to no object cannot be
    written in Python; the outcome [DanglingReference] is never met
    from a state whose references are all allocated. *)
Definition deref (r : ref) : Py Position.t :=
  p <- gets (λ b, store b !! r) ;;
  match p with
  | Some p => ret p
  | None => raise DanglingReference
  end.

(** [position.attr = value] *)
Definition assign (r : ref) (f : Position.t → Position.t) : Py unit :=
  p <- deref r ;;
  modify (λ b, set_store b (<[r := f p]> (store b))).

(** A new [Position] object. *)
Definition new (p : result Position.t) : Py ref :=
  p <- lift p ;;
  r <- gets (λ b, length (store b)) ;;
  modify (λ b, set_store b (store b ++ [p])) ;;
  ret r.

(** [for x in l: body(x)] *)
Fixpoint for_each {A} (l : list A) (body : A → Py unit) : Py unit :=
  match l with
  | [] => ret tt
  | x :: l' => body x ;; for_each l' body
  end.

(** *** Methods *)

(** [Broker.__init__] *)
Definition init (now : Timestamp) (api : Market.Api) (assets : list Asset.t)
    (date : option Timestamp) : result t :=
  let assets_spread :=
    foldl (λ d a, <[Asset.symbol a := Asset.spread a]> d) ∅ assets in
  match Market.init now api (Asset.symbol <$> assets) date with
  | Ok m => Ok (mk assets assets_spread m ∅ [])
  | Raise e => Raise e
  end.

Definition next_timestep : Py (option Barset) :=
  λ b, let '(m, bar) := Market.next_barset (market b) in
       (set_market b m, Ok bar).

Definition curr_barset : Py (option Barset) := market_curr_barset.

(** An account object is always true in a condition, so
    [if self.accounts.get(name)] tests its presence. *)
Definition open_account (name : string) (initial_deposit : Q) : Py unit :=
  a <- accounts_get name ;;
  raise_if (negb (is_None a)) AccountAlreadyExists ;;
  modify (λ b, set_accounts b
    (<[name := BrokerAccount.init name initial_deposit None None]>
       (accounts b))).

Definition get_positions (account_name : string) : Py (list ref) :=
  a <- accounts_get account_name ;;
  raise_if (is_None a) AccountDoesNotExist ;;
  account_attr account_name BrokerAccount.positions.

Definition get_history (account_name : string) : Py (list ref) :=
  a <- accounts_get account_name ;;
  raise_if (is_None a) AccountDoesNotExist ;;
  account_attr account_name BrokerAccount.history.

Definition deposit_into_account (name : string) (amount : Q) : Py unit :=
  a <- accounts_get name ;;
  raise_if (is_None a) AccountDoesNotExist ;;
  account_assign name (λ acc,
    BrokerAccount.set_available acc (BrokerAccount.available acc + amount)%Q).

(** [self.assets_spread.get(symbol) is None or
     symbol not in self.market.curr_barset()]: the right operand is
    evaluated only when the left one is false. *)
Definition symbol_not_in_market (symbol : string) : Py bool :=
  s <- spread_get symbol ;;
  if is_None s then ret true
  else (barset <- market_curr_barset ;; not_in symbol barset).

Definition open_position (account_name symbol position_type : string)
    (value : Q) (sl tp : option Q) : Py ref :=
  a <- accounts_get account_name ;;
  raise_if (is_None a) AccountDoesNotExist ;;
  absent <- symbol_not_in_market symbol ;;
  raise_if absent SymbolNotInMarket ;;
  available <- account_attr account_name BrokerAccount.available ;;
  raise_if (Qltb available value) NotEnoughMoney ;;
  raise_if (negb (bool_decide (position_type = "buy"))
            && negb (bool_decide (position_type = "sell")))
           PositionTypeMustBeBuyOrSell ;;
  curr_barset <- market_curr_barset ;;
  open_price <- subscript_close curr_barset symbol ;;
  open_price <- (if bool_decide (position_type = "buy")
                 then plus_spread open_price symbol
                 else ret open_price) ;;
  units <- lift (py_div value open_price) ;;
  open_date <- attr_name curr_barset ;;
  pos <- new (Position.init symbol open_date position_type open_price units
                sl tp None None) ;;
  account_assign account_name (λ acc,
    BrokerAccount.set_positions acc (BrokerAccount.positions acc ++ [pos])) ;;
  account_assign account_name (λ acc,
    BrokerAccount.set_available acc (BrokerAccount.available acc - value)%Q) ;;
  ret pos.

Definition close_position (account_name : string) (position : ref)
    (price : option Q) : Py unit :=
  a <- accounts_get account_name ;;
  raise_if (is_None a) AccountDoesNotExist ;;
  price <- match price with
           | Some price => ret price
           | None =>
               curr_barset <- market_curr_barset ;;
               p <- deref position ;;
               subscript_close curr_barset (Position.symbol p)
           end ;;
  assign position (λ p, Position.set_close_price p (Some price)) ;;
  p <- deref position ;;
  (if bool_decide (Position.position_type p = "sell") then
     c <- plus_spread price (Position.symbol p) ;;
     assign position (λ p, Position.set_close_price p (Some c))
   else ret tt) ;;
  barset <- market_curr_barset ;;
  close_date <- attr_name barset ;;
  assign position (λ p, Position.set_close_date p (Some close_date)) ;;
  positions <- account_attr account_name BrokerAccount.positions ;;
  match list_remove position positions with
  | None => raise ValueError
  | Some positions' =>
      account_assign account_name (λ acc,
        BrokerAccount.set_positions acc positions') ;;
      account_assign account_name (λ acc,
        BrokerAccount.set_history acc (BrokerAccount.history acc ++ [position])) ;;
      p <- deref position ;;
      valuation <- lift (Position.get_valuation p price) ;;
      account_assign account_name (λ acc,
        BrokerAccount.set_available acc
          (BrokerAccount.available acc + valuation)%Q)
  end.

(** [[p for p in positions if p.symbol == symbol]] *)
Definition select_symbol (objects : list Position.t) (symbol : string)
    (positions : list ref) : list ref :=
  filter (λ p, Position.symbol <$> objects !! p = Some symbol) positions.

Definition close_positions (account_name symbol : string)
    (price : option Q) : Py (list ref) :=
  a <- accounts_get account_name ;;
  raise_if (is_None a) AccountDoesNotExist ;;
  absent <- symbol_not_in_market symbol ;;
  raise_if absent SymbolNotInMarket ;;
  positions <- account_attr account_name BrokerAccount.positions ;;
  objects <- gets store ;;
  let to_close := select_symbol objects symbol positions in
  for_each to_close (λ p, close_position account_name p price) ;;
  ret to_close.

Definition get_account_balance (account_name : string) : Py Q :=
  a <- accounts_get account_name ;;
  raise_if (is_None a) AccountDoesNotExist ;;
  account_attr account_name BrokerAccount.available.

Definition reset (date : option Timestamp) : Py unit :=
  λ b, let '(m, r) := Market.reset (market b) date in (set_market b m, r).

End Broker.

(** ** Sequences of engine operations *)

Inductive Op : Type :=
  | OpenAccount (name : string) (initial_deposit : Q)
  | Deposit (name : string) (amount : Q)
  | OpenPosition (account_name symbol position_type : string) (value : Q)
      (sl tp : option Q)
  | ClosePosition (account_name : string) (position : ref) (price : option Q)
  | ClosePositions (account_name symbol : string) (price : option Q)
  | AdvanceTime.

(** One call, its returned value dropped. *)
Definition exec (op : Op) : Broker.Py unit :=
  match op with
  | OpenAccount n d => Broker.open_account n d
  | Deposit n a => Broker.deposit_into_account n a
  | OpenPosition a s ty v sl tp =>
      Broker.bind (Broker.open_position a s ty v sl tp) (λ _, Broker.ret tt)
  | ClosePosition a p price => Broker.close_position a p price
  | ClosePositions a s price =>
      Broker.bind (Broker.close_positions a s price) (λ _, Broker.ret tt)
  | AdvanceTime =>
      Broker.bind Broker.next_timestep (λ _, Broker.ret tt)
  end.

(** The states reached after each call of a sequence, up to and
    including the first call that raises. *)
Fixpoint trace (ops : list Op) (b : Broker.t) : list Broker.t :=
  match ops with
  | [] => []
  | op :: ops' =>
      match exec op b with
      | (b', Ok _) => b' :: trace ops' b'
      | (b', Raise _) => [b']
      end
  end.






(** ** Prices recorded by the engine *)

(** The price at which [open_position] executes. *)
Definition execution_price (position_type : string) (close spread : Q) : Q :=
  if bool_decide (position_type = "buy") then (close + spread)%Q else close.

(** The price [close_position] works with: the one given, else the
    current close of the position's symbol. *)
Definition resolve_price (m : Market.t) (p : Position.t) (price : option Q)
  : option Q :=
  match price with
  | Some q => Some q
  | None =>
      row ← Market.curr_barset m;
      bar ← columns row !! Position.symbol p;
      Some (close bar)
  end.

(** The fields of a position once [close_position] has written
    [close_price] and [close_date]; [None] when one of the lookups the
    method makes on the way has no result. *)
Definition closing (b : Broker.t) (price : option Q) (p : Position.t)
  : option Position.t :=
  q ← resolve_price (Broker.market b) p price;
  c ← (if bool_decide (Position.position_type p = "sell")
       then s ← Broker.assets_spread b !! Position.symbol p; Some (q + s)%Q
       else Some q);
  row ← Market.curr_barset (Broker.market b);
  Some (Position.set_close_date (Position.set_close_price p (Some c))
          (Some (name row))).

(** The state [open_position] leaves when it returns: [p] is the new
    object, [acc] the account before the call. *)
Definition opened (b : Broker.t) (a : string) (acc : BrokerAccount.t)
    (v : Q) (p : Position.t) : Broker.t :=
  Broker.mk (Broker.assets b) (Broker.assets_spread b) (Broker.market b)
    (<[a := BrokerAccount.mk (BrokerAccount.name acc)
              (BrokerAccount.available acc - v)%Q
              (BrokerAccount.positions acc ++ [length (Broker.store b)])
              (BrokerAccount.history acc)]> (Broker.accounts b))
    (Broker.store b ++ [p]).

(** The state [close_position] leaves when it returns: [p'] is the
    closed object, [l'] the open positions left, [v] the credit. *)
Definition closed (b : Broker.t) (a : string) (acc : BrokerAccount.t)
    (r : ref) (p' : Position.t) (l' : list ref) (v : Q) : Broker.t :=
  Broker.mk (Broker.assets b) (Broker.assets_spread b) (Broker.market b)
    (<[a := BrokerAccount.mk (BrokerAccount.name acc)
              (BrokerAccount.available acc + v)%Q
              l'
              (BrokerAccount.history acc ++ [r])]> (Broker.accounts b))
    (<[r := p']> (Broker.store b)).

(** ** A sample session *)

Definition flat_bar (c : Q) : Bar := mkBar c c c c.

Definition sample_row (ts : Timestamp) (c : Q) : Barset :=
  mkBarset ts {[ "AAPL" := flat_bar c ]}.

Definition no_feed : Market.Api := λ _ _ _, Raise FeedError.

(** A feed with two minutes before the opening, two inside the session
    and one after the close. *)
Definition sample_feed : Market.Api :=
  λ _ start _,
    Ok [sample_row (start + 568)%Z 99; sample_row (start + 569)%Z 99;
        sample_row (start + 570)%Z 100; sample_row (start + 571)%Z 101;
        sample_row (start + 961)%Z 102].

(** One symbol with the given spread, whose close is [c1] in the first
    minute and [c2] in the second. *)
Definition sample_broker (spread c1 c2 : Q) : Broker.t :=
  Broker.mk [Asset.mk "AAPL" spread] {[ "AAPL" := spread ]}
    (Market.mk no_feed ["AAPL"] [sample_row 570 c1; sample_row 571 c2] 0)
    ∅ [].

(** The state after the calls [ops]. *)
Definition after (ops : list Op) (b : Broker.t) : Broker.t :=
  default b (last (trace ops b)).

(** A short sale that loses more than its notional: 1000 sold at 100,
    bought back one minute later at 250 (plus the spread). *)
Definition overdraft_ops : list Op :=
  [OpenAccount "a" 1000;
   OpenPosition "a" "AAPL" "sell" 1000 None None;
   AdvanceTime;
   ClosePosition "a" 0 None].

(** A purchase closed at a gain. *)
Definition gain_ops : list Op :=
  [OpenAccount "a" 1000;
   Deposit "a" 5;
   OpenPosition "a" "AAPL" "buy" 1000 None None;
   AdvanceTime;
   ClosePositions "a" "AAPL" None].

(** One purchase of 1000 at close 100 with a spread of 0.5, held in
    account ["a"] under reference 0. *)
Definition trade_ops : list Op :=
  [OpenAccount "a" 1000;
   OpenPosition "a" "AAPL" "buy" 1000 None None].

Definition held : Broker.t := after trade_ops (sample_broker 0.5 100 101).

(** The same position closed at 100 in the first minute. *)
Definition closed_once : Broker.t :=
  after [ClosePosition "a" 0 (Some 100%Q)] held.

(** The calls that never close a position. *)
Definition opens_only (op : Op) : bool :=
  match op with
  | ClosePosition _ _ _ | ClosePositions _ _ _ => false
  | _ => true
  end.

Definition sample_market : Market.t :=
  Broker.market (sample_broker 0 100 101).

(** The sample market with its cursor behind the last bar. *)
Definition exhausted_market : Market.t := Market.set_i sample_market 2.

(** A market connected to the sample feed, in the middle of some other
    session. *)
Definition fed_market : Market.t :=
  Market.mk sample_feed ["AAPL"] [sample_row 570 1] 1.

(** ** Notions for the engine as a whole *)

(** [n] calls of [next_barset] in a row: the clock they leave and what
    each returned. *)
Fixpoint next_barsets (n : nat) (m : Market.t)
  : Market.t * list (option Barset) :=
  match n with
  | O => (m, [])
  | S n' =>
      let '(m1, bar) := Market.next_barset m in
      let '(m2, bars) := next_barsets n' m1 in
      (m2, bar :: bars)
  end.

(** The account a call works on. *)
Definition account_of (op : Op) : option string :=
  match op with
  | OpenAccount n _ | Deposit n _ => Some n
  | OpenPosition a _ _ _ _ _ | ClosePosition a _ _ | ClosePositions a _ _ =>
      Some a
  | AdvanceTime => None
  end.

(** [p'] is [p] with at most its closing fields rewritten, and is closed
    if [p] was. *)
Definition same_opening (p p' : Position.t) : Prop :=
  Position.symbol p' = Position.symbol p
  ∧ Position.open_date p' = Position.open_date p
  ∧ Position.position_type p' = Position.position_type p
  ∧ Position.open_price p' = Position.open_price p
  ∧ Position.units p' = Position.units p
  ∧ Position.sl p' = Position.sl p
  ∧ Position.tp p' = Position.tp p
  ∧ (is_Some (Position.close_price p) → is_Some (Position.close_price p')).

(** Every object of [b] is still there in [b'], under the same
    reference and with the same opening data. *)
Definition store_kept (b b' : Broker.t) : Prop :=
  ∀ r p, Broker.store b !! r = Some p →
         ∃ p', Broker.store b' !! r = Some p' ∧ same_opening p p'.

(** Every account of [b] is still there in [b'], under the same name,
    and its history has only grown at the end. *)
Definition ledger_kept (b b' : Broker.t) : Prop :=
  ∀ n acc, Broker.accounts b !! n = Some acc →
           ∃ acc', Broker.accounts b' !! n = Some acc'
                   ∧ BrokerAccount.name acc' = BrokerAccount.name acc
                   ∧ BrokerAccount.history acc
                     `prefix_of` BrokerAccount.history acc'.

(** The catalogue and the clock are the same in [b] and [b']. *)
Definition market_kept (b b' : Broker.t) : Prop :=
  Broker.market b' = Broker.market b
  ∧ Broker.assets_spread b' = Broker.assets_spread b
  ∧ Broker.assets b' = Broker.assets b.

(** The session is the same in [b] and [b'], and the cursor has not
    moved back. *)
Definition clock_forward (b b' : Broker.t) : Prop :=
  Market._bars (Broker.market b') = Market._bars (Broker.market b)
  ∧ Market.symbols (Broker.market b') = Market.symbols (Broker.market b)
  ∧ Broker.assets_spread b' = Broker.assets_spread b
  ∧ (Market.i (Broker.market b) ≤ Market.i (Broker.market b'))%nat.

(** The accounts other than [a] are the same in [b] and [b']. *)
Definition others_kept (a : string) (b b' : Broker.t) : Prop :=
  ∀ n, n ≠ a → Broker.accounts b' !! n = Broker.accounts b !! n.

(** Whatever a statement does, returning or raising, it takes a state
    to one related to it by [R]. *)
Definition respects (R : Broker.t → Broker.t → Prop) {A}
    (c : Broker.Py A) : Prop :=
  ∀ b b' r, c b = (b', r) → R b b'.

(** The position behind [r] has a close price. *)
Definition closed_at (b : Broker.t) (r : ref) : Prop :=
  ∃ p, Broker.store b !! r = Some p ∧ is_Some (Position.close_price p).

(** Every position in a history has a close price. *)
Definition history_closed (b : Broker.t) : Prop :=
  ∀ n acc r, Broker.accounts b !! n = Some acc →
             r ∈ BrokerAccount.history acc → closed_at b r.

(** [history_closed], and the positions [extra] are closed too. *)
Definition closed_with (extra : list ref) (b : Broker.t) : Prop :=
  history_closed b ∧ Forall (closed_at b) extra.

(** From a state in [P], the statement [c] returns [x] in a state in
    [Q x], or raises in a state in [E]. *)
Definition triple {A} (P : Broker.t → Prop) (c : Broker.Py A)
    (Q : A → Broker.t → Prop) (E : Broker.t → Prop) : Prop :=
  ∀ b, P b → match c b with
             | (b', Ok x) => Q x b'
             | (b', Raise _) => E b'
             end.

(** The positions of [b] whose reference is not in [S] are as they are
    in [b0]. *)
Definition writes_within (S : list ref) (b0 b : Broker.t) : Prop :=
  ∀ r, r ∉ S → Broker.store b !! r = Broker.store b0 !! r.

(** The references an account holds open for a symbol. *)
Definition open_for (b : Broker.t) (symbol : string) (acc : BrokerAccount.t)
  : list ref :=
  Broker.select_symbol (Broker.store b) symbol (BrokerAccount.positions acc).

(** The references an account holds open for the other symbols. *)
Definition open_for_others (b : Broker.t) (symbol : string)
    (acc : BrokerAccount.t) : list ref :=
  filter (λ p, ¬ (Position.symbol <$> Broker.store b !! p = Some symbol))
         (BrokerAccount.positions acc).

(** Two accounts and a second symbol, for the examples. *)
Definition two_symbol_row (ts : Timestamp) (c1 c2 : Q) : Barset :=
  mkBarset ts {[ "AAPL" := flat_bar c1; "GOOG" := flat_bar c2 ]}.

Definition desk : Broker.t :=
  Broker.mk [Asset.mk "AAPL" 0.5; Asset.mk "GOOG" 2]
    {[ "AAPL" := 0.5%Q; "GOOG" := 2%Q ]}
    (Market.mk no_feed ["AAPL"; "GOOG"]
       [two_symbol_row 570 100 2000; two_symbol_row 571 101 1990] 0)
    ∅ [].

Definition desk_ops : list Op :=
  [OpenAccount "a" 10000;
   OpenAccount "b" 500;
   OpenPosition "a" "AAPL" "buy" 1000 None None;
   OpenPosition "a" "GOOG" "sell" 2000 None None;
   OpenPosition "a" "AAPL" "sell" 500 None None;
   AdvanceTime].

(** The same desk on a session whose second minute has no bar for
    AAPL. *)
Definition gap_desk : Broker.t :=
  Broker.set_market desk
    (Market.mk no_feed ["AAPL"; "GOOG"]
       [two_symbol_row 570 100 2000;
        mkBarset 571 {[ "GOOG" := flat_bar 1990 ]}] 0).

(** ** Proof helpers *)

(** Unfolding the statements of a method. *)
Ltac py_unfold :=
  cbv beta delta
    [Broker.open_position Broker.close_position Broker.close_positions
     Broker.open_account Broker.deposit_into_account Broker.get_positions
     Broker.get_history Broker.get_account_balance
     Broker.symbol_not_in_market Broker.account_assign Broker.account_attr
     Broker.accounts_get Broker.spread_get Broker.market_curr_barset
     Broker.not_in Broker.subscript_close Broker.attr_name Broker.plus_spread
     Broker.deref Broker.assign Broker.new Broker.raise_if Broker.lift
     Broker.gets Broker.modify Broker.bind Broker.ret Broker.raise].

(** Reading the fields of a record, leaving the arithmetic alone. *)
Ltac fields :=
  cbn [Position.symbol Position.open_date Position.position_type
       Position.open_price Position.units Position.sl Position.tp
       Position.close_price Position.close_date Position.set_close_price
       Position.set_close_date BrokerAccount.name BrokerAccount.available
       BrokerAccount.positions BrokerAccount.history Broker.accounts
       Broker.store Broker.market Broker.assets Broker.assets_spread
       closed opened default].

Import Broker.

(** * Properties *)

(** ** The market clock *)

Section Clock.

Variable m : Market.t.

Lemma next_barset_exhausted :
  (length (Market._bars m) ≤ Market.i m)%nat →
  Market.next_barset m = (m, None).
Proof.
  intros H. unfold Market.next_barset.
  by rewrite (proj2 (Nat.leb_le _ _) H).
Qed.

Lemma curr_barset_exhausted :
  (length (Market._bars m) ≤ Market.i m)%nat →
  Market.curr_barset m = None.
Proof.
  intros H. unfold Market.curr_barset.
  by rewrite (proj2 (Nat.leb_le _ _) H).
Qed.

Lemma next_barset_in_session :
  (Market.i m < length (Market._bars m))%nat →
  ∃ bar, Market._bars m !! Market.i m = Some bar
       ∧ Market.next_barset m = (Market.set_i m (Market.i m + 1), Some bar).
Proof.
  intros H. destruct (lookup_lt_is_Some_2 _ _ H) as [bar Hbar].
  exists bar. split; [done|].
  unfold Market.next_barset.
  rewrite (proj2 (Nat.leb_gt _ _) H). by rewrite Hbar.
Qed.

Lemma next_barset_returns_curr :
  snd (Market.next_barset m) = Market.curr_barset m.
Proof.
  unfold Market.next_barset, Market.curr_barset.
  by destruct (length (Market._bars m) <=? Market.i m)%nat.
Qed.

End Clock.

(** Calling [next_barset] any number of times on an exhausted session
    changes nothing. *)
Lemma next_barset_iter_exhausted (m : Market.t) (n : nat) :
  (length (Market._bars m) ≤ Market.i m)%nat →
  Nat.iter n (λ m, fst (Market.next_barset m)) m = m.
Proof.
  intros H. induction n as [|n IH]; [done|].
  simpl. rewrite IH. by rewrite next_barset_exhausted.
Qed.

(** C5. [next_barset] ([advance]): on an exhausted session (cursor at
    or past the end of the bars) it returns nothing and leaves the
    clock as it is, however often it is called; otherwise it returns
    the bar at the cursor and moves the cursor one step, touching
    nothing else.  In both cases the value returned is the one
    [curr_barset] gave just before the call. *)
Theorem next_barset_spec (m : Market.t) :
  ((length (Market._bars m) ≤ Market.i m)%nat →
     Market.next_barset m = (m, None)
     ∧ ∀ n, Nat.iter n (λ m, fst (Market.next_barset m)) m = m)
  ∧ ((Market.i m < length (Market._bars m))%nat →
     ∃ bar m',
       Market._bars m !! Market.i m = Some bar
       ∧ Market.next_barset m = (m', Some bar)
       ∧ Market.i m' = S (Market.i m)
       ∧ Market._bars m' = Market._bars m
       ∧ Market.symbols m' = Market.symbols m
       ∧ Market._api m' = Market._api m)
  ∧ snd (Market.next_barset m) = Market.curr_barset m.
Proof.
  split; [|split].
  - intros H. split; [by apply next_barset_exhausted|].
    intros n. by apply next_barset_iter_exhausted.
  - intros H. destruct (next_barset_in_session m H) as (bar & Hbar & Hnext).
    exists bar, (Market.set_i m (Market.i m + 1)).
    repeat split; try done. simpl. lia.
  - apply next_barset_returns_curr.
Qed.

Lemma next_barset_spec_witness :
  (Market.next_barset exhausted_market = (exhausted_market, None)
   ∧ ∀ n, Nat.iter n (λ m, fst (Market.next_barset m)) exhausted_market
          = exhausted_market)
  ∧ (∃ bar m',
       Market._bars sample_market !! Market.i sample_market = Some bar
       ∧ Market.next_barset sample_market = (m', Some bar)
       ∧ Market.i m' = S (Market.i sample_market)
       ∧ Market._bars m' = Market._bars sample_market
       ∧ Market.symbols m' = Market.symbols sample_market
       ∧ Market._api m' = Market._api sample_market).
Proof.
  split.
  - apply (proj1 (next_barset_spec exhausted_market)). simpl. lia.
  - apply (proj1 (proj2 (next_barset_spec sample_market))). simpl. lia.
Defined.

(** ** Resetting the clock *)

Lemma reset_no_date (m : Market.t) :
  Market.reset m None = (Market.set_i m 0, Ok tt).
Proof. reflexivity. Qed.

(** C7. [reset] with a date: the call raises [NameError] and leaves the
    clock untouched, for every clock and date, whereas [load_day] with
    the same date, on the sample feed, loads the session of that day
    and returns.  ([reset] without a date puts the cursor back to 0.) *)
Theorem reset_with_date_raises :
  (∀ m d, Market.reset m (Some d) = (m, Raise NameError))
  ∧ (∀ m, Market.reset m None = (Market.set_i m 0, Ok tt))
  ∧ Market.reset fed_market (Some 1440%Z) = (fed_market, Raise NameError)
  ∧ Market.load_day 0 fed_market (Some 1440%Z)
    = (Market.mk sample_feed ["AAPL"]
         [sample_row 2010 100; sample_row 2011 101] 0, Ok tt).
Proof.
  split; [reflexivity|]. split; [reflexivity|].
  split; [reflexivity|]. vm_compute. reflexivity.
Qed.

(** ** Positions *)

Lemma get_profit_buy (p : Position.t) (price : Q) :
  Position.position_type p = "buy" →
  Position.get_profit p price
  = Ok (Position.units p
        * (default price (Position.close_price p) - Position.open_price p))%Q.
Proof.
  intros H. unfold Position.get_profit. rewrite decide_True by done.
  by destruct (Position.close_price p).
Qed.

Lemma get_profit_sell (p : Position.t) (price : Q) :
  Position.position_type p = "sell" →
  Position.get_profit p price
  = Ok (Position.units p
        * (- default price (Position.close_price p) + Position.open_price p))%Q.
Proof.
  intros H. unfold Position.get_profit.
  rewrite decide_False by (rewrite H; discriminate).
  rewrite decide_True by done.
  by destruct (Position.close_price p).
Qed.

Lemma get_profit_other (p : Position.t) (price : Q) :
  Position.position_type p ≠ "buy" →
  Position.position_type p ≠ "sell" →
  Position.get_profit p price = Raise OperationTypeNotRecognized.
Proof.
  intros H1 H2. unfold Position.get_profit.
  by rewrite !decide_False by done.
Qed.

Lemma get_profit_ok_iff (p : Position.t) (price : Q) :
  is_ok (Position.get_profit p price) = true
  ↔ Position.position_type p = "buy" ∨ Position.position_type p = "sell".
Proof.
  split.
  - intros H.
    destruct (decide (Position.position_type p = "buy")) as [|H1]; [by left|].
    destruct (decide (Position.position_type p = "sell")) as [|H2]; [by right|].
    by rewrite get_profit_other in H.
  - intros [H|H]; [by rewrite get_profit_buy|by rewrite get_profit_sell].
Qed.


(** ** Rationals *)

Lemma Qltb_lt (x y : Q) : Qltb x y = true ↔ (x < y)%Q.
Proof. unfold Qltb, Qlt. apply Z.ltb_lt. Qed.

Lemma Qltb_ge (x y : Q) : Qltb x y = false ↔ (y <= x)%Q.
Proof. unfold Qltb, Qle. apply Z.ltb_ge. Qed.

Lemma Qeq_bool_false (x y : Q) : Qeq_bool x y = false ↔ ¬ (x == y)%Q.
Proof.
  split.
  - intros H E. apply Qeq_bool_iff in E. congruence.
  - intros H. destruct (Qeq_bool x y) eqn:E; [|done].
    apply Qeq_bool_iff in E. contradiction.
Qed.

(** ** Removing a reference from a list *)

Lemma list_remove_elem_of (x : ref) (l : list ref) :
  x ∈ l → is_Some (list_remove x l).
Proof.
  induction l as [|y l IH]; intros H.
  - by apply elem_of_nil in H.
  - simpl. destruct (decide (y = x)); [by eexists|].
    apply elem_of_cons in H as [->|H]; [done|].
    destruct (IH H) as [l' ->]. by eexists.
Qed.

Lemma list_remove_None (x : ref) (l : list ref) :
  x ∉ l → list_remove x l = None.
Proof.
  induction l as [|y l IH]; intros H; [done|].
  simpl. apply not_elem_of_cons in H as [H1 H2].
  rewrite decide_False by done. by rewrite IH.
Qed.

(** ** open_account, deposit_into_account *)

Lemma open_account_eq (b : t) (n : string) (d : Q) :
  open_account n d b =
    match accounts b !! n with
    | Some _ => (b, Raise AccountAlreadyExists)
    | None => (set_accounts b (<[n := BrokerAccount.mk n d [] []]> (accounts b)),
               Ok tt)
    end.
Proof. py_unfold. by destruct (accounts b !! n). Qed.

Lemma deposit_into_account_eq (b : t) (n : string) (x : Q) :
  deposit_into_account n x b =
    match accounts b !! n with
    | None => (b, Raise AccountDoesNotExist)
    | Some acc =>
        (set_accounts b
           (<[n := BrokerAccount.set_available acc
                     (BrokerAccount.available acc + x)%Q]> (accounts b)),
         Ok tt)
    end.
Proof.
  py_unfold. destruct (accounts b !! n) eqn:E; simpl; [|done].
  by rewrite E.
Qed.

(** ** open_position *)

(** The outcome of [open_position] once the account, the spread and the
    current bar of the symbol are known. *)
Lemma open_position_eq b a s ty v sl tp acc spread row bar :
  accounts b !! a = Some acc →
  assets_spread b !! s = Some spread →
  Market.curr_barset (market b) = Some row →
  columns row !! s = Some bar →
  open_position a s ty v sl tp b =
    if Qltb (BrokerAccount.available acc) v then (b, Raise NotEnoughMoney)
    else if negb (bool_decide (ty = "buy")) && negb (bool_decide (ty = "sell"))
    then (b, Raise PositionTypeMustBeBuyOrSell)
    else
      let open_price := execution_price ty (close bar) spread in
      (opened b a acc v
         (Position.mk s (name row) ty open_price (v / open_price) sl tp
            None None),
       Ok (length (store b))).
Proof.
  intros Ha Hs Hr Hb. py_unfold. rewrite Ha; simpl. rewrite Hs; simpl.
  rewrite Hr; simpl. rewrite Hb; simpl. rewrite Ha; simpl.
  destruct (Qltb _ _); simpl; [done|].
  destruct (negb _ && negb _); simpl; [done|].
  rewrite Hr; simpl. rewrite Hb; simpl.
  unfold execution_price, py_div.
  destruct (bool_decide (ty = "buy")); simpl.
  - rewrite Hs; simpl.
    rewrite Ha; simpl. rewrite lookup_insert_eq; simpl.
    by rewrite insert_insert_eq.
  - rewrite Ha; simpl. rewrite lookup_insert_eq; simpl.
    by rewrite insert_insert_eq.
Qed.

(** The checks made before the account is looked at for funds. *)
Lemma open_position_no_account b a s ty v sl tp :
  accounts b !! a = None →
  open_position a s ty v sl tp b = (b, Raise AccountDoesNotExist).
Proof. intros Ha. py_unfold. by rewrite Ha. Qed.

Lemma open_position_no_spread b a s ty v sl tp acc :
  accounts b !! a = Some acc →
  assets_spread b !! s = None →
  open_position a s ty v sl tp b = (b, Raise SymbolNotInMarket).
Proof. intros Ha Hs. py_unfold. rewrite Ha; simpl. by rewrite Hs. Qed.

Lemma open_position_no_barset b a s ty v sl tp acc spread :
  accounts b !! a = Some acc →
  assets_spread b !! s = Some spread →
  Market.curr_barset (market b) = None →
  open_position a s ty v sl tp b = (b, Raise TypeError).
Proof.
  intros Ha Hs Hr. py_unfold. rewrite Ha; simpl. rewrite Hs; simpl.
  by rewrite Hr.
Qed.

Lemma open_position_no_bar b a s ty v sl tp acc spread row :
  accounts b !! a = Some acc →
  assets_spread b !! s = Some spread →
  Market.curr_barset (market b) = Some row →
  columns row !! s = None →
  open_position a s ty v sl tp b = (b, Raise SymbolNotInMarket).
Proof.
  intros Ha Hs Hr Hb. py_unfold. rewrite Ha; simpl. rewrite Hs; simpl.
  rewrite Hr; simpl. by rewrite Hb.
Qed.

(** What a returning [open_position] has done. *)
Lemma open_position_inv b a s ty v sl tp b' r :
  open_position a s ty v sl tp b = (b', Ok r) →
  ∃ acc spread row bar,
    accounts b !! a = Some acc
    ∧ assets_spread b !! s = Some spread
    ∧ Market.curr_barset (market b) = Some row
    ∧ columns row !! s = Some bar
    ∧ (v <= BrokerAccount.available acc)%Q
    ∧ (ty = "buy" ∨ ty = "sell")
    ∧ r = length (store b)
    ∧ b' = opened b a acc v
             (Position.mk s (name row) ty
                (execution_price ty (close bar) spread)
                (v / execution_price ty (close bar) spread) sl tp None None).
Proof.
  intros H.
  destruct (accounts b !! a) as [acc|] eqn:Ha;
    [|by rewrite open_position_no_account in H].
  destruct (assets_spread b !! s) as [spread|] eqn:Hs;
    [|by rewrite (open_position_no_spread _ _ _ _ _ _ _ acc) in H].
  destruct (Market.curr_barset (market b)) as [row|] eqn:Hr;
    [|by rewrite (open_position_no_barset _ _ _ _ _ _ _ acc spread) in H].
  destruct (columns row !! s) as [bar|] eqn:Hb;
    [|by rewrite (open_position_no_bar _ _ _ _ _ _ _ acc spread row) in H].
  rewrite (open_position_eq _ _ _ _ _ _ _ acc spread row bar) in H by done.
  destruct (Qltb _ _) eqn:Hlt; [done|].
  destruct (negb _ && negb _) eqn:Hty; [done|].
  simpl in H. injection H as <- <-.
  exists acc, spread, row, bar. repeat split; try done.
  - by apply Qltb_ge.
  - apply andb_false_iff in Hty as [Hty|Hty];
      apply negb_false_iff, bool_decide_eq_true in Hty; auto.
Qed.

(** A raising [open_position] has changed nothing. *)
Lemma open_position_raise_unchanged b a s ty v sl tp b' e :
  open_position a s ty v sl tp b = (b', Raise e) → b' = b.
Proof.
  intros H.
  destruct (accounts b !! a) as [acc|] eqn:Ha;
    [|rewrite open_position_no_account in H by done; congruence].
  destruct (assets_spread b !! s) as [spread|] eqn:Hs;
    [|rewrite (open_position_no_spread _ _ _ _ _ _ _ acc) in H by done;
      congruence].
  destruct (Market.curr_barset (market b)) as [row|] eqn:Hr;
    [|rewrite (open_position_no_barset _ _ _ _ _ _ _ acc spread) in H by done;
      congruence].
  destruct (columns row !! s) as [bar|] eqn:Hb;
    [|rewrite (open_position_no_bar _ _ _ _ _ _ _ acc spread row) in H by done;
      congruence].
  rewrite (open_position_eq _ _ _ _ _ _ _ acc spread row bar) in H by done.
  destruct (Qltb _ _); [congruence|].
  destruct (negb _ && negb _); [congruence|].
  simpl in H. congruence.
Qed.

Lemma open_account_raise_unchanged b n d b' e :
  open_account n d b = (b', Raise e) → b' = b.
Proof.
  rewrite open_account_eq. destruct (accounts b !! n); congruence.
Qed.

Lemma deposit_raise_unchanged b n x b' e :
  deposit_into_account n x b = (b', Raise e) → b' = b.
Proof.
  rewrite deposit_into_account_eq. destruct (accounts b !! n); congruence.
Qed.

(** ** close_position *)

Lemma closing_inv b price p p' :
  closing b price p = Some p' →
  ∃ q c row,
    resolve_price (market b) p price = Some q
    ∧ Market.curr_barset (market b) = Some row
    ∧ (if bool_decide (Position.position_type p = "sell")
       then ∃ s, assets_spread b !! Position.symbol p = Some s
                 ∧ c = (q + s)%Q
       else c = q)
    ∧ p' = Position.set_close_date (Position.set_close_price p (Some c))
             (Some (name row)).
Proof.
  unfold closing. intros H.
  destruct (resolve_price (market b) p price) as [q|]; [|done].
  simpl in H.
  destruct (bool_decide (Position.position_type p = "sell")) eqn:Hty.
  - destruct (assets_spread b !! Position.symbol p) as [s|]; [|done].
    simpl in H.
    destruct (Market.curr_barset (market b)) as [row|]; [|done].
    simpl in H. injection H as <-.
    exists q, (q + s)%Q, row. eauto 10.
  - simpl in H.
    destruct (Market.curr_barset (market b)) as [row|]; [|done].
    simpl in H. injection H as <-.
    by exists q, q, row.
Qed.

Lemma bind_ok {A B} (c : Py A) (k : A → Py B) (b b' : t) (x : A) :
  c b = (b', Ok x) → bind c k b = k x b'.
Proof. intros H. unfold bind. by rewrite H. Qed.

Lemma bind_raise {A B} (c : Py A) (k : A → Py B) (b b' : t) (e : exn) :
  c b = (b', Raise e) → bind c k b = (b', Raise e).
Proof. intros H. unfold bind. by rewrite H. Qed.

(** The outcome of [close_position] on an existing account, once both
    fields of the position could be written. *)
Lemma close_position_eq b a r price acc p q p' :
  accounts b !! a = Some acc →
  store b !! r = Some p →
  resolve_price (market b) p price = Some q →
  closing b price p = Some p' →
  close_position a r price b =
    let b1 := set_store b (<[r := p']> (store b)) in
    match list_remove r (BrokerAccount.positions acc) with
    | None => (b1, Raise ValueError)
    | Some l' =>
        match Position.get_valuation p' q with
        | Raise e =>
            (set_accounts b1
               (<[a := BrokerAccount.mk (BrokerAccount.name acc)
                         (BrokerAccount.available acc) l'
                         (BrokerAccount.history acc ++ [r])]> (accounts b)),
             Raise e)
        | Ok v => (closed b a acc r p' l' v, Ok tt)
        end
    end.
Proof.
  intros Ha Hp Hq Hc.
  pose proof (lookup_lt_Some _ _ _ Hp) as Hlt.
  destruct (closing_inv _ _ _ _ Hc) as (q' & c & row & Hq' & Hrow & Hsell & ->).
  rewrite Hq in Hq'. injection Hq' as <-.
  assert (Hfin : ∀ st : list Position.t, ∀ x y : Position.t,
            <[r:=x]> (<[r:=y]> st) = <[r:=x]> st)
    by (intros; apply list_insert_insert_eq).
  assert (Htail : ∀ b1 : t,
    accounts b1 = accounts b →
    store b1 = <[r := Position.set_close_price p (Some c)]> (store b) →
    market b1 = market b →
    assets b1 = assets b → assets_spread b1 = assets_spread b →
    (x <- market_curr_barset ;;
     close_date <- attr_name x ;;
     assign r (λ p, Position.set_close_date p (Some close_date)) ;;
     positions <- account_attr a BrokerAccount.positions ;;
     match list_remove r positions with
     | None => raise ValueError
     | Some positions' =>
        account_assign a (λ acc,
          BrokerAccount.set_positions acc positions') ;;
        account_assign a (λ acc,
          BrokerAccount.set_history acc (BrokerAccount.history acc ++ [r])) ;;
        p <- deref r ;;
        valuation <- lift (Position.get_valuation p q) ;;
        account_assign a (λ acc,
          BrokerAccount.set_available acc
            (BrokerAccount.available acc + valuation)%Q)
     end) b1 =
    match list_remove r (BrokerAccount.positions acc) with
    | None =>
        (set_store b (<[r := Position.set_close_date
                               (Position.set_close_price p (Some c))
                               (Some (name row))]> (store b)),
         Raise ValueError)
    | Some l' =>
        match Position.get_valuation
                (Position.set_close_date (Position.set_close_price p (Some c))
                   (Some (name row))) q with
        | Raise e =>
            (set_accounts
               (set_store b (<[r := Position.set_close_date
                               (Position.set_close_price p (Some c))
                               (Some (name row))]> (store b)))
               (<[a := BrokerAccount.mk (BrokerAccount.name acc)
                         (BrokerAccount.available acc) l'
                         (BrokerAccount.history acc ++ [r])]> (accounts b)),
             Raise e)
        | Ok v =>
            (closed b a acc r
               (Position.set_close_date (Position.set_close_price p (Some c))
                  (Some (name row))) l' v, Ok tt)
        end
    end).
  { intros [bas bsp bm bac bst]; simpl. intros -> -> -> -> ->.
    py_unfold; simpl. rewrite Hrow; simpl.
    rewrite list_lookup_insert_eq by done; simpl.
    rewrite Ha; simpl. rewrite Hfin.
    destruct (list_remove r (BrokerAccount.positions acc)) as [l'|]; simpl;
      [|by destruct b].
    rewrite Ha; simpl. rewrite lookup_insert_eq; simpl.
    rewrite insert_insert_eq.
    rewrite list_lookup_insert_eq by done; simpl.
    destruct (Position.get_valuation _ _) as [v|e]; simpl.
    - rewrite lookup_insert_eq; simpl. rewrite insert_insert_eq.
      by destruct b.
    - by destruct b. }
  unfold close_position.
  erewrite bind_ok by reflexivity. rewrite Ha.
  erewrite bind_ok by reflexivity.
  erewrite bind_ok; cycle 1.
  { destruct price as [q0|]; simpl in Hq.
    - injection Hq as ->. reflexivity.
    - rewrite Hrow in Hq; simpl in Hq.
      destruct (columns row !! Position.symbol p) as [bar|] eqn:Hbar; [|done].
      injection Hq as <-. py_unfold. rewrite Hrow, Hp; simpl.
      by rewrite Hbar. }
  erewrite bind_ok by (py_unfold; rewrite Hp; reflexivity).
  erewrite bind_ok
    by (py_unfold; simpl; rewrite list_lookup_insert_eq by done; reflexivity).
  simpl.
  destruct (bool_decide (Position.position_type p = "sell")).
  - destruct Hsell as (s & Hs & ->).
    erewrite bind_ok; cycle 1.
    { py_unfold; simpl. rewrite Hs; simpl.
      rewrite list_lookup_insert_eq by done; simpl. rewrite Hfin.
      reflexivity. }
    by apply Htail.
  - subst c. erewrite bind_ok by reflexivity. by apply Htail.
Qed.

(** What a returning [close_position] has done. *)
Lemma close_position_inv b a r price b' :
  close_position a r price b = (b', Ok tt) →
  ∃ acc p q p' l' v,
    accounts b !! a = Some acc
    ∧ store b !! r = Some p
    ∧ resolve_price (market b) p price = Some q
    ∧ closing b price p = Some p'
    ∧ list_remove r (BrokerAccount.positions acc) = Some l'
    ∧ Position.get_valuation p' q = Ok v
    ∧ b' = closed b a acc r p' l' v.
Proof.
  intros H.
  destruct (accounts b !! a) as [acc|] eqn:Ha; cycle 1.
  { revert H. py_unfold. by rewrite Ha. }
  destruct (store b !! r) as [p|] eqn:Hp; cycle 1.
  { revert H. py_unfold. rewrite Ha; simpl.
    destruct price; simpl; by rewrite Hp. }
  destruct (resolve_price (market b) p price) as [q|] eqn:Hq; cycle 1.
  { revert H. py_unfold. rewrite Ha; simpl.
    destruct price; simpl in *; [done|]. rewrite Hp; simpl.
    destruct (Market.curr_barset (market b)) as [row|]; simpl in *; [|done].
    by destruct (columns row !! Position.symbol p); simpl in *. }
  destruct (closing b price p) as [p'|] eqn:Hc; cycle 1.
  { pose proof (lookup_lt_Some _ _ _ Hp) as Hlt.
    revert H. unfold close_position.
    erewrite bind_ok by reflexivity. rewrite Ha.
    erewrite bind_ok by reflexivity.
    erewrite bind_ok; cycle 1.
    { destruct price as [q0|]; simpl in Hq.
      - injection Hq as ->. reflexivity.
      - destruct (Market.curr_barset (market b)) as [row|] eqn:Hrow;
          simpl in Hq; [|done].
        destruct (columns row !! Position.symbol p) as [bar|] eqn:Hbar;
          [|done].
        injection Hq as <-. py_unfold. rewrite Hrow, Hp; simpl.
        by rewrite Hbar. }
    unfold closing in Hc. rewrite Hq in Hc. simpl in Hc.
    py_unfold. rewrite Hp; simpl.
    rewrite list_lookup_insert_eq by done; simpl.
    destruct (bool_decide (Position.position_type p = "sell")).
    - simpl.
      destruct (assets_spread b !! Position.symbol p) as [s|]; simpl in *;
        [|done].
      rewrite list_lookup_insert_eq by done; simpl.
      by destruct (Market.curr_barset (market b)); simpl in *.
    - simpl in *. by destruct (Market.curr_barset (market b)); simpl in *. }
  rewrite (close_position_eq _ _ _ _ acc p q p') in H by done.
  simpl in H.
  destruct (list_remove r (BrokerAccount.positions acc)) as [l'|] eqn:Hl;
    [|done].
  destruct (Position.get_valuation p' q) as [v|] eqn:Hv; [|done].
  injection H as <-. by exists acc, p, q, p', l', v.
Qed.




Lemma closing_close_price b price p p' :
  closing b price p = Some p' → is_Some (Position.close_price p').
Proof.
  intros H.
  destruct (closing_inv _ _ _ _ H) as (q & c & row & _ & _ & _ & ->).
  by eexists.
Qed.


(** ** No overdraft *)





Lemma opened_lookup b a acc v p :
  store (opened b a acc v p) !! length (store b) = Some p.
Proof. simpl. by apply list_lookup_middle. Qed.






(** ** Opening and immediately closing *)

Lemma units_times_price (v price : Q) :
  ¬ (price == 0)%Q → (v / price * price == v)%Q.
Proof. intros H. field. exact H. Qed.

(** C10 as stated fails where the execution price is 0: a sell of 1000
    at a close of 0 is opened, and [units * open_price], a multiple of
    0, is not the 1000 asked for. *)
Lemma valuation_fails_at_zero_price :
  ∃ b' r p,
    open_position "a" "AAPL" "sell" 1000 None None
      (after [OpenAccount "a" 1000] (sample_broker 0 0 1)) = (b', Ok r)
    ∧ store b' !! r = Some p
    ∧ (Position.open_price p == 0)%Q
    ∧ ¬ (Position.units p * Position.open_price p == 1000)%Q.
Proof.
  eexists _, _, _.
  split; [vm_compute; reflexivity|].
  split; [vm_compute; reflexivity|].
  split; [reflexivity|].
  intros H. vm_compute in H. discriminate.
Qed.

(** C10, as the code has it.  Right after [open_position] has returned
    at an execution price other than 0, the new position is worth the
    cash put into it: [units * open_price] equals the requested cash,
    the profit at the open price is 0 and [get_valuation(open_price)]
    equals the requested cash, for both sides (exact arithmetic). *)
Theorem open_position_valuation b a s ty v sl tp b' r spread row bar :
  assets_spread b !! s = Some spread →
  Market.curr_barset (market b) = Some row →
  columns row !! s = Some bar →
  ¬ (execution_price ty (close bar) spread == 0)%Q →
  open_position a s ty v sl tp b = (b', Ok r) →
  ∃ p profit valuation,
    store b' !! r = Some p
    ∧ Position.open_price p = execution_price ty (close bar) spread
    ∧ (Position.units p * Position.open_price p == v)%Q
    ∧ Position.get_profit p (Position.open_price p) = Ok profit
    ∧ (profit == 0)%Q
    ∧ Position.get_valuation p (Position.open_price p) = Ok valuation
    ∧ (valuation == v)%Q.
Proof.
  intros Hs0 Hr0 Hb0 Hz H.
  apply open_position_inv in H
    as (acc & spread' & row' & bar' & Ha & Hs & Hr & Hb & Hv & Hty & -> & ->).
  rewrite Hs0 in Hs. injection Hs as <-.
  rewrite Hr0 in Hr. injection Hr as <-.
  rewrite Hb0 in Hb. injection Hb as <-.
  set (price := execution_price ty (close bar) spread) in *.
  pose proof (units_times_price v price Hz) as Hu.
  eexists. destruct Hty as [->| ->].
  - eexists _, _. split; [apply opened_lookup|]. fields.
    split; [done|]. split; [done|].
    split; [by apply get_profit_buy|]. fields.
    split; [ring|]. unfold Position.get_valuation.
    rewrite get_profit_buy by done. fields.
    split; [reflexivity|]. rewrite Hu. ring.
  - eexists _, _. split; [apply opened_lookup|]. fields.
    split; [done|]. split; [done|].
    split; [by apply get_profit_sell|]. fields.
    split; [ring|]. unfold Position.get_valuation.
    rewrite get_profit_sell by done. fields.
    split; [reflexivity|]. rewrite Hu. ring.
Qed.

Lemma open_position_valuation_witness :
  ∃ p profit valuation,
    store (after (take 3 gain_ops) (sample_broker 0.5 100 101)) !! 0 = Some p
    ∧ Position.open_price p = execution_price "buy" 100 0.5
    ∧ (Position.units p * Position.open_price p == 1000)%Q
    ∧ Position.get_profit p (Position.open_price p) = Ok profit
    ∧ (profit == 0)%Q
    ∧ Position.get_valuation p (Position.open_price p) = Ok valuation
    ∧ (valuation == 1000)%Q.
Proof.
  apply (open_position_valuation
           (after (take 2 gain_ops) (sample_broker 0.5 100 101))
           "a" "AAPL" "buy" 1000%Q None None _ 0 0.5%Q
           (sample_row 570 100) (flat_bar 100)).
  - reflexivity.
  - reflexivity.
  - reflexivity.
  - vm_compute. discriminate.
  - vm_compute. reflexivity.
Defined.

(** C3 as stated fails where the execution price is 0: with a spread of
    0 and a close of 0, a sell of 1000 is opened and then closed at its
    open price, and the 1000 are not back in the account. *)
Lemma restore_fails_at_zero_price :
  ∃ b1 r p b2 acc2,
    open_position "a" "AAPL" "sell" 1000 None None
      (after [OpenAccount "a" 1000] (sample_broker 0 0 1)) = (b1, Ok r)
    ∧ store b1 !! r = Some p
    ∧ (Position.open_price p == 0)%Q
    ∧ close_position "a" r (Some (Position.open_price p)) b1 = (b2, Ok tt)
    ∧ accounts b2 !! "a" = Some acc2
    ∧ ¬ (BrokerAccount.available acc2 == 1000)%Q.
Proof.
  eexists _, _, _, _, _.
  split; [vm_compute; reflexivity|].
  split; [vm_compute; reflexivity|].
  split; [reflexivity|].
  split; [vm_compute; reflexivity|].
  split; [vm_compute; reflexivity|].
  intros H. vm_compute in H. discriminate.
Qed.

(** C3, as the code has it.  With a spread of 0 on the symbol and an
    execution price other than 0, opening a position and closing it at
    once at its own open price puts [available] back to what it was
    before the open; the close does return. *)
Theorem open_then_close_restores_cash b a s ty v sl tp b1 r acc spread row
    bar :
  accounts b !! a = Some acc →
  assets_spread b !! s = Some spread →
  (spread == 0)%Q →
  Market.curr_barset (market b) = Some row →
  columns row !! s = Some bar →
  ¬ (execution_price ty (close bar) spread == 0)%Q →
  open_position a s ty v sl tp b = (b1, Ok r) →
  ∃ p b2 acc2,
    store b1 !! r = Some p
    ∧ close_position a r (Some (Position.open_price p)) b1 = (b2, Ok tt)
    ∧ accounts b2 !! a = Some acc2
    ∧ (BrokerAccount.available acc2 == BrokerAccount.available acc)%Q.
Proof.
  intros Hacc Hs0 Hsp Hr0 Hb0 Hz H.
  apply open_position_inv in H
    as (acc' & spread' & row' & bar' & Ha & Hs & Hr & Hb & Hv & Hty & -> & ->).
  rewrite Hacc in Ha. injection Ha as <-.
  rewrite Hs0 in Hs. injection Hs as <-.
  rewrite Hr0 in Hr. injection Hr as <-.
  rewrite Hb0 in Hb. injection Hb as <-.
  rename Hs0 into Hs. rename Hr0 into Hr.
  set (price := execution_price ty (close bar) spread) in *.
  set (p := Position.mk s (name row) ty price (v / price) sl tp None None).
  set (b1 := opened b a acc v p).
  set (acc1 := BrokerAccount.mk (BrokerAccount.name acc)
                 (BrokerAccount.available acc - v)%Q
                 (BrokerAccount.positions acc ++ [length (store b)])
                 (BrokerAccount.history acc)).
  assert (Ha1 : accounts b1 !! a = Some acc1) by apply lookup_insert_eq.
  assert (Hp1 : store b1 !! length (store b) = Some p) by apply opened_lookup.
  destruct (list_remove_elem_of (length (store b))
              (BrokerAccount.positions acc ++ [length (store b)]))
    as [l' Hl']; [apply elem_of_app; right; constructor|].
  pose proof (units_times_price v price Hz) as Hu.
  exists p. destruct Hty as [Hbuy|Hsell].
  - set (p' := Position.set_close_date (Position.set_close_price p (Some price))
                 (Some (name row))).
    assert (Hc : closing b1 (Some price) p = Some p').
    { unfold closing. simpl. rewrite Hr. subst ty. reflexivity. }
    exists (closed b1 a acc1 (length (store b)) p' l'
              (v / price * price + v / price * (price - price))%Q).
    eexists. split; [done|]. split.
    + rewrite (close_position_eq _ _ _ _ acc1 p price p') by done.
      cbv zeta. subst acc1. fields. rewrite Hl'.
      unfold Position.get_valuation.
      rewrite get_profit_buy by done. reflexivity.
    + split; [apply lookup_insert_eq|]. subst acc1. fields.
      rewrite Hu. ring.
  - set (p' := Position.set_close_date
                 (Position.set_close_price p (Some (price + spread)%Q))
                 (Some (name row))).
    assert (Hc : closing b1 (Some price) p = Some p').
    { unfold closing. simpl. rewrite Hr, Hs. subst ty. reflexivity. }
    exists (closed b1 a acc1 (length (store b)) p' l'
              (v / price * price
               + v / price * (- (price + spread) + price))%Q).
    eexists. split; [done|]. split.
    + rewrite (close_position_eq _ _ _ _ acc1 p price p') by done.
      cbv zeta. subst acc1. fields. rewrite Hl'.
      unfold Position.get_valuation.
      rewrite get_profit_sell by done. reflexivity.
    + split; [apply lookup_insert_eq|]. subst acc1. fields.
      rewrite Hsp, Hu. ring.
Qed.

Lemma open_then_close_restores_cash_witness :
  ∃ p b2 acc2,
    store (after (take 3 gain_ops) (sample_broker 0 100 101)) !! 0 = Some p
    ∧ close_position "a" 0 (Some (Position.open_price p))
        (after (take 3 gain_ops) (sample_broker 0 100 101)) = (b2, Ok tt)
    ∧ accounts b2 !! "a" = Some acc2
    ∧ (BrokerAccount.available acc2 == 1005)%Q.
Proof.
  apply (open_then_close_restores_cash
           (after (take 2 gain_ops) (sample_broker 0 100 101))
           "a" "AAPL" "buy" 1000%Q None None
           (after (take 3 gain_ops) (sample_broker 0 100 101)) 0
           (BrokerAccount.mk "a" 1005 [] []) 0%Q
           (sample_row 570 100) (flat_bar 100)).
  - vm_compute. reflexivity.
  - reflexivity.
  - reflexivity.
  - reflexivity.
  - reflexivity.
  - vm_compute. discriminate.
  - vm_compute. reflexivity.
Defined.

(** ** Where the spread is charged *)

Lemma open_position_price b a s ty v sl tp b' r :
  open_position a s ty v sl tp b = (b', Ok r) →
  ∃ p spread row bar,
    store b' !! r = Some p
    ∧ assets_spread b !! s = Some spread
    ∧ Market.curr_barset (market b) = Some row
    ∧ columns row !! s = Some bar
    ∧ Position.position_type p = ty
    ∧ Position.open_price p = execution_price ty (close bar) spread.
Proof.
  intros H.
  apply open_position_inv in H
    as (acc & spread & row & bar & Ha & Hs & Hr & Hb & Hv & Hty & -> & ->).
  eexists _, spread, row, bar. split; [apply opened_lookup|]. done.
Qed.

Lemma close_position_price b a r price b' p :
  store b !! r = Some p →
  close_position a r price b = (b', Ok tt) →
  ∃ p' q,
    store b' !! r = Some p'
    ∧ resolve_price (market b) p price = Some q
    ∧ (Position.position_type p = "sell" →
       ∃ spread, assets_spread b !! Position.symbol p = Some spread
                 ∧ Position.close_price p' = Some (q + spread)%Q)
    ∧ (Position.position_type p ≠ "sell" →
       Position.close_price p' = Some q).
Proof.
  intros Hp H.
  apply close_position_inv in H
    as (acc & p0 & q & p' & l' & v & Ha & Hp0 & Hq & Hc & Hl & Hv & ->).
  rewrite Hp in Hp0. injection Hp0 as <-.
  exists p', q. split.
  { simpl. apply list_lookup_insert_eq. by eapply lookup_lt_Some. }
  split; [done|].
  destruct (closing_inv _ _ _ _ Hc) as (q' & c & row & Hq' & Hrow & Hsell & ->).
  rewrite Hq in Hq'. injection Hq' as <-.
  split; intros Hty.
  - rewrite bool_decide_eq_true_2 in Hsell by done.
    destruct Hsell as (spread & Hs & ->). by exists spread.
  - rewrite bool_decide_eq_false_2 in Hsell by done. by subst c.
Qed.

(** C4. The spread is charged on one side of each trade only.
    [open_position] records [open_price = close + spread] for a buy and
    [open_price = close] for a sell, [close] being the close of the
    current bar; [close_position] records [close_price = price + spread]
    for a sell, [price] being the one given or else the current close.
    On the sample session
    (close 100, spread 0.5): a sell of 1000 gets [open_price = 100], and
    closing it at 90 records [close_price = 90.5] and a profit of
    [units * (100 - 90.5)]. *)
Theorem spread_placement :
  (∀ b a s ty v sl tp b' r,
     open_position a s ty v sl tp b = (b', Ok r) →
     ∃ p spread row bar,
       store b' !! r = Some p
       ∧ assets_spread b !! s = Some spread
       ∧ Market.curr_barset (market b) = Some row
       ∧ columns row !! s = Some bar
       ∧ (ty = "buy" → Position.open_price p = (close bar + spread)%Q)
       ∧ (ty = "sell" → Position.open_price p = close bar))
  ∧ (∀ b a r price b' p,
       store b !! r = Some p →
       Position.position_type p = "sell" →
       close_position a r price b = (b', Ok tt) →
       ∃ p' spread q,
         store b' !! r = Some p'
         ∧ assets_spread b !! Position.symbol p = Some spread
         ∧ resolve_price (market b) p price = Some q
         ∧ Position.close_price p' = Some (q + spread)%Q)
  ∧ (∃ b1 r b2 p p' c profit,
       open_position "a" "AAPL" "sell" 1000 None None
         (after [OpenAccount "a" 1000] (sample_broker 0.5 100 90)) = (b1, Ok r)
       ∧ store b1 !! r = Some p
       ∧ (Position.open_price p == 100)%Q
       ∧ close_position "a" r (Some 90%Q) b1 = (b2, Ok tt)
       ∧ store b2 !! r = Some p'
       ∧ Position.close_price p' = Some c
       ∧ (c == 90.5)%Q
       ∧ Position.get_profit p' 90 = Ok profit
       ∧ (profit == Position.units p' * (100 - 90.5))%Q).
Proof.
  split; [|split].
  - intros b a s ty v sl tp b' r H.
    apply open_position_price in H
      as (p & spread & row & bar & Hp & Hs & Hr & Hb & Hty & Hprice).
    exists p, spread, row, bar. repeat split; try done.
    + intros ->. by rewrite Hprice.
    + intros ->. by rewrite Hprice.
  - intros b a r price b' p Hp Hty H.
    destruct (close_position_price _ _ _ _ _ _ Hp H)
      as (p' & q & Hp' & Hq & Hsell & _).
    destruct (Hsell Hty) as (spread & Hs & Hc). by exists p', spread, q.
  - eexists _, _, _, _, _, _, _.
    split; [vm_compute; reflexivity|].
    split; [vm_compute; reflexivity|].
    split; [vm_compute; reflexivity|].
    split; [vm_compute; reflexivity|].
    split; [vm_compute; reflexivity|].
    split; [vm_compute; reflexivity|].
    split; [vm_compute; reflexivity|].
    split; [vm_compute; reflexivity|].
    vm_compute. reflexivity.
Qed.

Lemma spread_placement_witness :
  (∃ p spread row bar,
     store (after (take 3 gain_ops) (sample_broker 0.5 100 101)) !! 0 = Some p
     ∧ assets_spread (after (take 2 gain_ops) (sample_broker 0.5 100 101))
         !! "AAPL" = Some spread
     ∧ Market.curr_barset
         (market (after (take 2 gain_ops) (sample_broker 0.5 100 101)))
       = Some row
     ∧ columns row !! "AAPL" = Some bar
     ∧ ("buy" = "buy" → Position.open_price p = (close bar + spread)%Q)
     ∧ ("buy" = "sell" → Position.open_price p = close bar))
  ∧ (∃ p' spread q,
       store (after overdraft_ops (sample_broker 0.5 100 250)) !! 0 = Some p'
       ∧ assets_spread (after (take 3 overdraft_ops)
                          (sample_broker 0.5 100 250)) !! "AAPL" = Some spread
       ∧ resolve_price
           (market (after (take 3 overdraft_ops) (sample_broker 0.5 100 250)))
           (Position.mk "AAPL" 570 "sell" 100 (1000 / 100) None None
              None None) None = Some q
       ∧ Position.close_price p' = Some (q + spread)%Q).
Proof.
  split.
  - apply (proj1 spread_placement
             (after (take 2 gain_ops) (sample_broker 0.5 100 101))
             "a" "AAPL" "buy" 1000%Q None None).
    vm_compute. reflexivity.
  - apply (proj1 (proj2 spread_placement)
             (after (take 3 overdraft_ops) (sample_broker 0.5 100 250))
             "a" 0 None _
             (Position.mk "AAPL" 570 "sell" 100 (1000 / 100) None None
                None None)).
    + vm_compute. reflexivity.
    + reflexivity.
    + vm_compute. reflexivity.
Defined.

(** ** The division in open_position *)

(** C9 as stated fails: no error comes out of the division.  A sell at
    a close of 0, and a buy at a close of -0.5 with a spread of 0.5,
    both have an execution price of 0, and both calls return a
    position. *)
Lemma no_error_at_zero_price :
  snd (open_position "a" "AAPL" "sell" 1000 None None
         (after [OpenAccount "a" 1000] (sample_broker 0.5 0 1)))
  = Ok 0%nat
  ∧ snd (open_position "a" "AAPL" "buy" 1000 None None
           (after [OpenAccount "a" 1000] (sample_broker 0.5 (-0.5) 1)))
    = Ok 0%nat
  ∧ (execution_price "sell" 0 0.5 == 0)%Q
  ∧ (execution_price "buy" (-0.5) 0.5 == 0)%Q.
Proof. repeat split; vm_compute; reflexivity. Qed.

(** C9, as the code has it.  Nothing guards the division
    [value / open_price], and nothing comes of it but a number: when
    the account, the symbol, the funds and the side have passed their
    checks, [open_position] returns whatever the execution price (the
    current close, plus the spread for a buy), 0 included; the new
    position is appended to the account's open list and the requested
    cash is taken from the balance.  What depends on a price other than
    0 is the number of units: then [units * open_price] is the
    requested cash, whereas at a price of 0 it is not, for any
    requested cash other than 0. *)
Theorem open_position_division b a s ty v sl tp acc spread row bar :
  accounts b !! a = Some acc →
  assets_spread b !! s = Some spread →
  Market.curr_barset (market b) = Some row →
  columns row !! s = Some bar →
  (v <= BrokerAccount.available acc)%Q →
  ty = "buy" ∨ ty = "sell" →
  ∃ b' r p acc',
    open_position a s ty v sl tp b = (b', Ok r)
    ∧ store b' !! r = Some p
    ∧ Position.open_price p = execution_price ty (close bar) spread
    ∧ accounts b' !! a = Some acc'
    ∧ BrokerAccount.positions acc' = BrokerAccount.positions acc ++ [r]
    ∧ BrokerAccount.available acc' = (BrokerAccount.available acc - v)%Q
    ∧ (¬ (execution_price ty (close bar) spread == 0)%Q →
       (Position.units p * Position.open_price p == v)%Q)
    ∧ ((execution_price ty (close bar) spread == 0)%Q → ¬ (v == 0)%Q →
       ¬ (Position.units p * Position.open_price p == v)%Q).
Proof.
  intros Ha Hs Hr Hb Hv Hty.
  eexists _, _, _, _. split.
  { rewrite (open_position_eq _ _ _ _ _ _ _ acc spread row bar) by done.
    rewrite (proj2 (Qltb_ge _ _) Hv).
    destruct Hty as [-> | ->]; reflexivity. }
  split; [apply opened_lookup|]. fields.
  split; [done|]. split; [apply lookup_insert_eq|]. fields.
  split; [done|]. split; [done|]. split.
  - intros Hz. by apply units_times_price.
  - intros Hz Hv0 H. apply Hv0. rewrite <- H, Hz. ring.
Qed.

Lemma open_position_division_witness :
  (∃ b' r p acc',
     open_position "a" "AAPL" "sell" 1000 None None
       (after [OpenAccount "a" 1000] (sample_broker 0.5 0 1)) = (b', Ok r)
     ∧ store b' !! r = Some p
     ∧ Position.open_price p = execution_price "sell" 0 0.5
     ∧ accounts b' !! "a" = Some acc'
     ∧ BrokerAccount.positions acc' = [] ++ [r]
     ∧ BrokerAccount.available acc' = (1000 - 1000)%Q
     ∧ (¬ (execution_price "sell" 0 0.5 == 0)%Q →
        (Position.units p * Position.open_price p == 1000)%Q)
     ∧ ((execution_price "sell" 0 0.5 == 0)%Q → ¬ (1000 == 0)%Q →
        ¬ (Position.units p * Position.open_price p == 1000)%Q))
  ∧ (∃ b' r p acc',
       open_position "a" "AAPL" "buy" 1000 None None
         (after [OpenAccount "a" 1000] (sample_broker 0.5 100 101))
       = (b', Ok r)
       ∧ store b' !! r = Some p
       ∧ Position.open_price p = execution_price "buy" 100 0.5
       ∧ accounts b' !! "a" = Some acc'
       ∧ BrokerAccount.positions acc' = [] ++ [r]
       ∧ BrokerAccount.available acc' = (1000 - 1000)%Q
       ∧ (¬ (execution_price "buy" 100 0.5 == 0)%Q →
          (Position.units p * Position.open_price p == 1000)%Q)
       ∧ ((execution_price "buy" 100 0.5 == 0)%Q → ¬ (1000 == 0)%Q →
          ¬ (Position.units p * Position.open_price p == 1000)%Q)).
Proof.
  split.
  - apply (open_position_division
             (after [OpenAccount "a" 1000] (sample_broker 0.5 0 1))
             "a" "AAPL" "sell" 1000%Q None None
             (BrokerAccount.mk "a" 1000 [] []) 0.5%Q
             (sample_row 570 0) (flat_bar 0)
             eq_refl eq_refl eq_refl eq_refl
             ltac:(vm_compute; discriminate) (or_intror eq_refl)).
  - apply (open_position_division
             (after [OpenAccount "a" 1000] (sample_broker 0.5 100 101))
             "a" "AAPL" "buy" 1000%Q None None
             (BrokerAccount.mk "a" 1000 [] []) 0.5%Q
             (sample_row 570 100) (flat_bar 100)
             eq_refl eq_refl eq_refl eq_refl
             ltac:(vm_compute; discriminate) (or_introl eq_refl)).
Defined.

(** ** Side tags *)

(** C8 as stated fails: a position with the side tag "hold" is built
    without complaint. *)
Lemma position_init_accepts_any_side :
  "hold" ≠ "buy" ∧ "hold" ≠ "sell"
  ∧ Position.init "AAPL" 570 "hold" 100 10 None None None None
    = Ok (Position.mk "AAPL" 570 "hold" 100 10 None None None None).
Proof. repeat split; discriminate. Qed.

(** C8, as the code has it.  Building a [Position] never fails and
    keeps whatever side tag it is given.  A tag other than 'buy' and
    'sell' is refused elsewhere: [open_position] raises 'Position type
    must be buy or sell!' once the account, symbol and funds checks
    have passed, before any position is built and with the state left
    as it was; and [get_profit] and [get_valuation] raise 'Operation
    type not recognized!' on a position carrying such a tag, while they
    return for 'buy' and 'sell'. *)
Theorem side_validation :
  (∀ symbol open_date ty open_price units sl tp close_price close_date,
     Position.init symbol open_date ty open_price units sl tp close_price
       close_date
     = Ok (Position.mk symbol open_date ty open_price units sl tp close_price
             close_date))
  ∧ (∀ p price,
       Position.position_type p ≠ "buy" →
       Position.position_type p ≠ "sell" →
       Position.get_profit p price = Raise OperationTypeNotRecognized
       ∧ Position.get_valuation p price = Raise OperationTypeNotRecognized)
  ∧ (∀ p price,
       Position.position_type p = "buy" ∨ Position.position_type p = "sell" →
       is_ok (Position.get_profit p price) = true
       ∧ is_ok (Position.get_valuation p price) = true)
  ∧ (∀ b a s ty v sl tp acc spread row bar,
       accounts b !! a = Some acc →
       assets_spread b !! s = Some spread →
       Market.curr_barset (market b) = Some row →
       columns row !! s = Some bar →
       (v <= BrokerAccount.available acc)%Q →
       ty ≠ "buy" → ty ≠ "sell" →
       open_position a s ty v sl tp b = (b, Raise PositionTypeMustBeBuyOrSell)).
Proof.
  split; [reflexivity|]. split; [|split].
  - intros p price H1 H2. unfold Position.get_valuation.
    by rewrite get_profit_other.
  - intros p price H. unfold Position.get_valuation.
    destruct H as [H|H];
      [rewrite get_profit_buy by done|rewrite get_profit_sell by done]; done.
  - intros b a s ty v sl tp acc spread row bar Ha Hs Hr Hb Hv H1 H2.
    rewrite (open_position_eq _ _ _ _ _ _ _ acc spread row bar) by done.
    rewrite (proj2 (Qltb_ge _ _) Hv).
    by rewrite !bool_decide_eq_false_2 by done.
Qed.

Lemma side_validation_witness :
  (Position.get_profit
     (Position.mk "AAPL" 570 "hold" 100 10 None None None None) 101
   = Raise OperationTypeNotRecognized
   ∧ Position.get_valuation
       (Position.mk "AAPL" 570 "hold" 100 10 None None None None) 101
     = Raise OperationTypeNotRecognized)
  ∧ (is_ok (Position.get_profit
              (Position.mk "AAPL" 570 "sell" 100 10 None None None None) 101)
     = true
     ∧ is_ok (Position.get_valuation
                (Position.mk "AAPL" 570 "sell" 100 10 None None None None) 101)
       = true)
  ∧ open_position "a" "AAPL" "hold" 1000 None None
      (after [OpenAccount "a" 1000] (sample_broker 0.5 100 101))
    = (after [OpenAccount "a" 1000] (sample_broker 0.5 100 101),
       Raise PositionTypeMustBeBuyOrSell).
Proof.
  split; [|split].
  - apply (proj1 (proj2 side_validation)); simpl; discriminate.
  - apply (proj1 (proj2 (proj2 side_validation))). simpl. by right.
  - apply (proj2 (proj2 (proj2 side_validation))
             (after [OpenAccount "a" 1000] (sample_broker 0.5 100 101))
             "a" "AAPL" "hold" 1000%Q None None
             (BrokerAccount.mk "a" 1000 [] []) 0.5%Q
             (sample_row 570 100) (flat_bar 100));
      try reflexivity; vm_compute; discriminate.
Defined.

(** ** Calls that raise half-way *)

(** C2. [close_position] writes [close_price] and [close_date] into the
    position before it looks for it in the account's list.  Closing at
    90 the position that was already closed at 100: the call raises
    [ValueError] from [positions.remove], and the stored position now
    says it was closed at 90.  Closing at an explicit price once the
    session is exhausted: the call raises [AttributeError], and the
    position, still in the account's open list, has a [close_price]. *)
Theorem close_position_partial_failure :
  (∃ b2 p1 p2,
     close_position "a" 0 (Some 90%Q) closed_once = (b2, Raise ValueError)
     ∧ store closed_once !! 0 = Some p1
     ∧ Position.close_price p1 = Some 100%Q
     ∧ store b2 !! 0 = Some p2
     ∧ Position.close_price p2 = Some 90%Q
     ∧ b2 ≠ closed_once)
  ∧ (∃ b2 p1 p2 acc,
       close_position "a" 0 (Some 100%Q) (after [AdvanceTime; AdvanceTime] held)
       = (b2, Raise AttributeError)
       ∧ store held !! 0 = Some p1
       ∧ Position.close_price p1 = None
       ∧ store b2 !! 0 = Some p2
       ∧ Position.close_price p2 = Some 100%Q
       ∧ accounts b2 !! "a" = Some acc
       ∧ BrokerAccount.positions acc = [0]
       ∧ BrokerAccount.history acc = []).
Proof.
  split.
  - eexists _, _, _.
    split; [vm_compute; reflexivity|].
    split; [vm_compute; reflexivity|].
    split; [reflexivity|].
    split; [vm_compute; reflexivity|].
    split; [reflexivity|].
    intros H. apply (f_equal store) in H. vm_compute in H. discriminate.
  - eexists _, _, _, _.
    split; [vm_compute; reflexivity|].
    split; [vm_compute; reflexivity|].
    split; [reflexivity|].
    split; [vm_compute; reflexivity|].
    split; [reflexivity|].
    split; [vm_compute; reflexivity|].
    split; reflexivity.
Qed.

(** The other mutating calls change nothing when they raise. *)
Lemma open_side_atomic op b b' e :
  opens_only op = true → exec op b = (b', Raise e) → b' = b.
Proof.
  intros Hop H. destruct op as [n d|n x|a s ty v sl tp| | |]; simpl in *;
    try done.
  - by eapply open_account_raise_unchanged.
  - by eapply deposit_raise_unchanged.
  - unfold bind in H.
    destruct (open_position a s ty v sl tp b) as [b1 [r|e1]] eqn:Ho; [done|].
    injection H as <- <-. by eapply open_position_raise_unchanged.
  - unfold bind, next_timestep in H.
    by destruct (Market.next_barset (market b)).
Qed.

(** ** Closed positions *)

(** C6. A closed position is written again by the next
    [close_position] on it: the position closed at 100 in minute 570
    has, after one more minute and a second [close_position] at 90
    (which raises [ValueError]), [close_price = 90] and
    [close_date = 571]. *)
Theorem closed_position_overwritten :
  ∃ b2 p1 p2,
    store closed_once !! 0 = Some p1
    ∧ Position.close_price p1 = Some 100%Q
    ∧ Position.close_date p1 = Some 570%Z
    ∧ close_position "a" 0 (Some 90%Q) (after [AdvanceTime] closed_once)
      = (b2, Raise ValueError)
    ∧ store b2 !! 0 = Some p2
    ∧ Position.close_price p2 = Some 90%Q
    ∧ Position.close_date p2 = Some 571%Z.
Proof.
  eexists _, _, _.
  split; [vm_compute; reflexivity|].
  split; [reflexivity|].
  split; [reflexivity|].
  split; [vm_compute; reflexivity|].
  split; [vm_compute; reflexivity|].
  split; reflexivity.
Qed.

(** The calls that do not close leave every stored position as it is. *)
Lemma open_side_keeps_positions op b b' res r p :
  opens_only op = true → exec op b = (b', res) →
  store b !! r = Some p → store b' !! r = Some p.
Proof.
  intros Hop H Hp. destruct op as [n d|n x|a s ty v sl tp| | |]; simpl in *;
    try done.
  - rewrite open_account_eq in H.
    destruct (accounts b !! n); by injection H as <- _.
  - rewrite deposit_into_account_eq in H.
    destruct (accounts b !! n); by injection H as <- _.
  - unfold bind in H.
    destruct (open_position a s ty v sl tp b) as [b1 [r1|e1]] eqn:Ho.
    + injection H as <- _.
      apply open_position_inv in Ho
        as (acc & spread & row & bar & _ & _ & _ & _ & _ & _ & _ & ->).
      simpl. by apply lookup_app_l_Some.
    + injection H as <- _.
      by rewrite (open_position_raise_unchanged _ _ _ _ _ _ _ _ _ Ho).
  - unfold bind, next_timestep in H.
    destruct (Market.next_barset (market b)). by injection H as <- _.
Qed.

(** * Further properties *)

(** ** A whole session through the clock *)

Lemma set_i_same (m : Market.t) : Market.set_i m (Market.i m) = m.
Proof. by destruct m. Qed.

Lemma next_barsets_in_session (k : nat) : ∀ m,
  (Market.i m + k ≤ length (Market._bars m))%nat →
  next_barsets k m
  = (Market.set_i m (Market.i m + k),
     Some <$> take k (drop (Market.i m) (Market._bars m))).
Proof.
  induction k as [|k IH]; intros m Hk; simpl.
  - by rewrite Nat.add_0_r, set_i_same.
  - assert (Hlt : (Market.i m < length (Market._bars m))%nat) by lia.
    destruct (next_barset_in_session m Hlt) as (bar & Hbar & ->).
    rewrite IH by (simpl; lia). simpl.
    rewrite (drop_S _ _ _ Hbar). simpl.
    replace (Market.i m + 1 + k)%nat with (Market.i m + S k)%nat by lia.
    by replace (Market.i m + 1)%nat with (S (Market.i m)) by lia.
Qed.

Lemma next_barsets_exhausted (k : nat) : ∀ m,
  (length (Market._bars m) ≤ Market.i m)%nat →
  next_barsets k m = (m, replicate k None).
Proof.
  induction k as [|k IH]; intros m Hk; simpl; [done|].
  rewrite next_barset_exhausted by done. by rewrite IH.
Qed.

Lemma next_barsets_app (j k : nat) : ∀ m,
  next_barsets (j + k) m
  = (fst (next_barsets k (fst (next_barsets j m))),
     snd (next_barsets j m) ++ snd (next_barsets k (fst (next_barsets j m)))).
Proof.
  induction j as [|j IH]; intros m; simpl.
  - by destruct (next_barsets k m).
  - destruct (Market.next_barset m) as [m1 bar]. rewrite IH.
    destruct (next_barsets j m1) as [m2 l]. simpl.
    by destruct (next_barsets k m2).
Qed.

(** X1. Starting with the cursor on the first bar, as many calls of
    [next_barset] as the session has bars return the bars one by one in
    their order, and every call after that returns nothing and leaves
    the clock where it is. *)
Theorem next_barset_walks_session (m : Market.t) (j : nat) :
  Market.i m = 0%nat →
  next_barsets (length (Market._bars m) + j) m
  = (Market.set_i m (length (Market._bars m)),
     (Some <$> Market._bars m) ++ replicate j None).
Proof.
  intros Hi. rewrite next_barsets_app.
  rewrite (next_barsets_in_session (length (Market._bars m)) m)
    by (rewrite Hi; simpl; lia).
  rewrite Hi. simpl. rewrite firstn_all.
  by rewrite next_barsets_exhausted by (simpl; lia).
Qed.

Lemma next_barset_walks_session_witness :
  next_barsets (length (Market._bars sample_market) + 2) sample_market
  = (Market.set_i sample_market (length (Market._bars sample_market)),
     (Some <$> Market._bars sample_market) ++ replicate 2 None).
Proof. apply (next_barset_walks_session sample_market 2). reflexivity. Defined.

(** X2. [reset] without a date rewinds the session: wherever the
    cursor stands, after [reset()] the current bar is the first one
    again and the calls of [next_barset] give the whole session anew;
    bars, symbols and provider are untouched. *)
Theorem reset_replays_session (m : Market.t) :
  ∃ m',
    Market.reset m None = (m', Ok tt)
    ∧ Market._bars m' = Market._bars m
    ∧ Market.symbols m' = Market.symbols m
    ∧ Market._api m' = Market._api m
    ∧ Market.curr_barset m' = head (Market._bars m)
    ∧ snd (next_barsets (length (Market._bars m)) m')
      = Some <$> Market._bars m.
Proof.
  exists (Market.set_i m 0). repeat split.
  - unfold Market.curr_barset. simpl.
    destruct (Market._bars m) as [|bar l]; reflexivity.
  - rewrite next_barsets_in_session by (simpl; lia).
    simpl. by rewrite firstn_all.
Qed.

(** X3. Fetch, then advance: when [next_barset] has returned the bar
    under the cursor, the current bar is the one after it, and there is
    no current bar once the last one has been returned. *)
Theorem next_barset_then_curr (m m' : Market.t) (bar : Barset) :
  Market.next_barset m = (m', Some bar) →
  Market._bars m !! Market.i m = Some bar
  ∧ Market.curr_barset m' = Market._bars m !! S (Market.i m)
  ∧ (S (Market.i m) = length (Market._bars m) → Market.curr_barset m' = None).
Proof.
  unfold Market.next_barset. intros H.
  destruct (length (Market._bars m) <=? Market.i m)%nat eqn:Hle; [done|].
  injection H as <- Hbar. apply Nat.leb_gt in Hle.
  assert (Hcurr : Market.curr_barset (Market.set_i m (Market.i m + 1))
                  = Market._bars m !! S (Market.i m)).
  { unfold Market.curr_barset. simpl.
    replace (Market.i m + 1)%nat with (S (Market.i m)) by lia.
    destruct (length (Market._bars m) <=? S (Market.i m))%nat eqn:Hle'; [|done].
    apply Nat.leb_le in Hle'. symmetry. by apply lookup_ge_None. }
  split; [done|]. split; [done|].
  intros Hlast. rewrite Hcurr. apply lookup_ge_None. lia.
Qed.

Lemma next_barset_then_curr_witness :
  Market._bars (Market.set_i sample_market 1)
    !! Market.i (Market.set_i sample_market 1) = Some (sample_row 571 101)
  ∧ Market.curr_barset exhausted_market
    = Market._bars (Market.set_i sample_market 1)
        !! S (Market.i (Market.set_i sample_market 1))
  ∧ (S (Market.i (Market.set_i sample_market 1))
     = length (Market._bars (Market.set_i sample_market 1)) →
     Market.curr_barset exhausted_market = None).
Proof.
  apply (next_barset_then_curr (Market.set_i sample_market 1)
           exhausted_market (sample_row 571 101)).
  reflexivity.
Defined.

(** ** Loading a day *)

(** X4. When the provider answers, [load_day] keeps exactly the rows of
    the answer stamped from 09:30 to 16:00 (both included) of the day
    asked for, in the provider's order, asks the provider for that day
    and the next, and puts the cursor on the first row kept; symbols
    and provider stay.  The day is the one given, else the current one,
    cut down to midnight. *)
Theorem load_day_session (now : Timestamp) (m : Market.t)
    (date : option Timestamp) (data : list Barset) :
  let day := Market.floor_day (default now date) in
  Market._api m (Market.symbols m) day (day + 1440)%Z = Ok data →
  ∃ m',
    Market.load_day now m date = (m', Ok tt)
    ∧ Market.i m' = 0%nat
    ∧ Market._bars m'
      = filter (λ row, (day + 570 ≤ name row ∧ name row ≤ day + 960)%Z) data
    ∧ Forall (λ row, (day + 570 ≤ name row ≤ day + 960)%Z) (Market._bars m')
    ∧ Market._bars m' `sublist_of` data
    ∧ Market.curr_barset m' = head (Market._bars m')
    ∧ Market.symbols m' = Market.symbols m
    ∧ Market._api m' = Market._api m.
Proof.
  intros day Hdata. unfold Market.load_day.
  replace (match date with Some d => d | None => now end)
    with (default now date) by (by destruct date).
  fold day. rewrite Hdata.
  eexists. split; [reflexivity|]. simpl.
  split; [done|]. split; [done|].
  split; [apply Forall_forall; intros row Hrow;
          by apply list_elem_of_filter in Hrow as [? _]|].
  split; [apply sublist_filter|].
  split; [|done].
  unfold Market.curr_barset. simpl.
  by destruct (filter _ data).
Qed.

Lemma load_day_session_witness :
  ∃ m',
    Market.load_day 0 fed_market (Some 1500%Z) = (m', Ok tt)
    ∧ Market.i m' = 0%nat
    ∧ Market._bars m'
      = filter (λ row, (1440 + 570 ≤ name row ∧ name row ≤ 1440 + 960)%Z)
          [sample_row 2008 99; sample_row 2009 99; sample_row 2010 100;
           sample_row 2011 101; sample_row 2401 102]
    ∧ Forall (λ row, (1440 + 570 ≤ name row ≤ 1440 + 960)%Z) (Market._bars m')
    ∧ Market._bars m'
      `sublist_of` [sample_row 2008 99; sample_row 2009 99;
                    sample_row 2010 100; sample_row 2011 101;
                    sample_row 2401 102]
    ∧ Market.curr_barset m' = head (Market._bars m')
    ∧ Market.symbols m' = Market.symbols fed_market
    ∧ Market._api m' = Market._api fed_market.
Proof.
  apply (load_day_session 0 fed_market (Some 1500%Z)
           [sample_row 2008 99; sample_row 2009 99; sample_row 2010 100;
            sample_row 2011 101; sample_row 2401 102]).
  vm_compute. reflexivity.
Defined.

(** ** What a call can touch *)

Lemma same_opening_refl (p : Position.t) : same_opening p p.
Proof. by repeat split. Qed.

Lemma same_opening_trans (p1 p2 p3 : Position.t) :
  same_opening p1 p2 → same_opening p2 p3 → same_opening p1 p3.
Proof.
  intros (? & ? & ? & ? & ? & ? & ? & H12) (? & ? & ? & ? & ? & ? & ? & H23).
  repeat split; try congruence. auto.
Qed.

Lemma same_opening_close_price (p : Position.t) (c : Q) :
  same_opening p (Position.set_close_price p (Some c)).
Proof. repeat split. intros _. by eexists. Qed.

Lemma same_opening_close_date (p : Position.t) (d : option Timestamp) :
  same_opening p (Position.set_close_date p d).
Proof. by repeat split. Qed.

(** The statements of the account and position methods, taken one by
    one: if a relation between states holds across each kind of
    assignment they make, it holds across the methods, however they
    end. *)
Section Footprint.

Variable a : string.
Variable R : t → t → Prop.

Hypothesis R_refl : ∀ b, R b b.
Hypothesis R_trans : ∀ b1 b2 b3, R b1 b2 → R b2 b3 → R b1 b3.

(** An attribute of the account [a] is assigned. *)
Hypothesis R_account : ∀ b acc acc',
  accounts b !! a = Some acc →
  BrokerAccount.name acc' = BrokerAccount.name acc →
  BrokerAccount.history acc `prefix_of` BrokerAccount.history acc' →
  R b (set_accounts b (<[a := acc']> (accounts b))).

(** The account [a] is created. *)
Hypothesis R_open_account : ∀ b d,
  accounts b !! a = None →
  R b (set_accounts b (<[a := BrokerAccount.mk a d [] []]> (accounts b))).

(** A closing field of a position is assigned. *)
Hypothesis R_position : ∀ b r p p',
  store b !! r = Some p → same_opening p p' →
  R b (set_store b (<[r := p']> (store b))).

(** A position is created. *)
Hypothesis R_new : ∀ b p, R b (set_store b (store b ++ [p])).

Lemma respects_pure {A} (c : Py A) :
  (∀ b, fst (c b) = b) → respects R c.
Proof.
  intros H b b' r Hc. specialize (H b). rewrite Hc in H. simpl in H.
  subst b'. apply R_refl.
Qed.

Lemma respects_bind {A B} (c : Py A) (k : A → Py B) :
  respects R c → (∀ x, respects R (k x)) → respects R (bind c k).
Proof.
  intros Hc Hk b b' r. unfold bind.
  destruct (c b) as [b1 [x|e]] eqn:E.
  - intros Hkx. eapply R_trans; [by eapply Hc|by eapply Hk].
  - intros [= <- <-]. by eapply Hc.
Qed.

Lemma respects_ret {A} (x : A) : respects R (ret x).
Proof. by apply respects_pure. Qed.

Lemma respects_raise {A} (e : exn) : respects R (@raise A e).
Proof. by apply respects_pure. Qed.

Lemma respects_gets {A} (f : t → A) : respects R (gets f).
Proof. by apply respects_pure. Qed.

Lemma respects_lift {A} (x : result A) : respects R (lift x).
Proof. by apply respects_pure. Qed.

Lemma respects_raise_if (c : bool) (e : exn) : respects R (raise_if c e).
Proof. apply respects_pure. by destruct c. Qed.

Lemma respects_account_attr {A} (n : string) (f : BrokerAccount.t → A) :
  respects R (account_attr n f).
Proof.
  apply respects_pure. intros b. py_unfold. by destruct (accounts b !! n).
Qed.

Lemma respects_symbol_not_in_market (s : string) :
  respects R (symbol_not_in_market s).
Proof.
  apply respects_pure. intros b. py_unfold.
  destruct (assets_spread b !! s); simpl; [|done].
  by destruct (Market.curr_barset (market b)).
Qed.

Lemma respects_subscript_close (o : option Barset) (s : string) :
  respects R (subscript_close o s).
Proof.
  apply respects_pure. intros b. py_unfold.
  destruct o as [row|]; [|done]. by destruct (columns row !! s).
Qed.

Lemma respects_attr_name (o : option Barset) : respects R (attr_name o).
Proof. apply respects_pure. intros b. by destruct o. Qed.

Lemma respects_plus_spread (q : Q) (s : string) :
  respects R (plus_spread q s).
Proof.
  apply respects_pure. intros b. py_unfold.
  by destruct (assets_spread b !! s).
Qed.

Lemma respects_deref (r : ref) : respects R (deref r).
Proof.
  apply respects_pure. intros b. py_unfold. by destruct (store b !! r).
Qed.

Lemma respects_account_assign (f : BrokerAccount.t → BrokerAccount.t) :
  (∀ acc, BrokerAccount.name (f acc) = BrokerAccount.name acc) →
  (∀ acc, BrokerAccount.history acc `prefix_of` BrokerAccount.history (f acc)) →
  respects R (account_assign a f).
Proof.
  intros Hname Hhist b b' r. py_unfold.
  destruct (accounts b !! a) as [acc|] eqn:Ha; simpl.
  - intros [= <- <-]. by apply R_account with acc.
  - intros [= <- <-]. apply R_refl.
Qed.

Lemma respects_assign (r : ref) (f : Position.t → Position.t) :
  (∀ p, same_opening p (f p)) → respects R (assign r f).
Proof.
  intros Hf b b' res. py_unfold.
  destruct (store b !! r) as [p|] eqn:Hp; simpl.
  - intros [= <- <-]. by apply R_position with p.
  - intros [= <- <-]. apply R_refl.
Qed.

Lemma respects_new (p : result Position.t) : respects R (new p).
Proof.
  intros b b' r. py_unfold. destruct p as [p|e]; simpl.
  - intros [= <- <-]. apply R_new.
  - intros [= <- <-]. apply R_refl.
Qed.

Lemma respects_for_each {A} (l : list A) (body : A → Py unit) :
  (∀ x, respects R (body x)) → respects R (for_each l body).
Proof.
  intros Hbody. induction l as [|x l IH]; simpl.
  - apply respects_ret.
  - by apply respects_bind.
Qed.

Lemma respects_open_account (d : Q) : respects R (open_account a d).
Proof.
  intros b b' r. rewrite open_account_eq.
  destruct (accounts b !! a) eqn:Ha.
  - intros [= <- <-]. apply R_refl.
  - intros [= <- <-]. by apply R_open_account.
Qed.

Lemma respects_deposit (x : Q) : respects R (deposit_into_account a x).
Proof.
  unfold deposit_into_account.
  apply respects_bind; [apply respects_gets|intros o].
  apply respects_bind; [apply respects_raise_if|intros _].
  by apply respects_account_assign.
Qed.

Lemma respects_open_position s ty v sl tp :
  respects R (open_position a s ty v sl tp).
Proof.
  unfold open_position.
  apply respects_bind; [apply respects_gets|intros o].
  apply respects_bind; [apply respects_raise_if|intros _].
  apply respects_bind; [apply respects_symbol_not_in_market|intros absent].
  apply respects_bind; [apply respects_raise_if|intros _].
  apply respects_bind; [apply respects_account_attr|intros available].
  apply respects_bind; [apply respects_raise_if|intros _].
  apply respects_bind; [apply respects_raise_if|intros _].
  apply respects_bind; [apply respects_gets|intros barset].
  apply respects_bind; [apply respects_subscript_close|intros price].
  apply respects_bind;
    [destruct (bool_decide (ty = "buy"));
     [apply respects_plus_spread|apply respects_ret]|intros open_price].
  apply respects_bind; [apply respects_lift|intros units].
  apply respects_bind; [apply respects_attr_name|intros open_date].
  apply respects_bind; [apply respects_new|intros pos].
  apply respects_bind; [by apply respects_account_assign|intros _].
  apply respects_bind; [by apply respects_account_assign|intros _].
  apply respects_ret.
Qed.

Lemma respects_close_position r price :
  respects R (close_position a r price).
Proof.
  unfold close_position.
  apply respects_bind; [apply respects_gets|intros o].
  apply respects_bind; [apply respects_raise_if|intros _].
  apply respects_bind.
  { destruct price; [apply respects_ret|].
    apply respects_bind; [apply respects_gets|intros barset].
    apply respects_bind; [apply respects_deref|intros p].
    apply respects_subscript_close. }
  intros q.
  apply respects_bind;
    [apply respects_assign; intros p; apply same_opening_close_price|intros _].
  apply respects_bind; [apply respects_deref|intros p].
  apply respects_bind.
  { destruct (bool_decide (Position.position_type p = "sell"));
      [|apply respects_ret].
    apply respects_bind; [apply respects_plus_spread|intros c].
    apply respects_assign. intros p0. apply same_opening_close_price. }
  intros _.
  apply respects_bind; [apply respects_gets|intros barset].
  apply respects_bind; [apply respects_attr_name|intros close_date].
  apply respects_bind;
    [apply respects_assign; intros p0; apply same_opening_close_date|intros _].
  apply respects_bind; [apply respects_account_attr|intros positions].
  destruct (list_remove r positions) as [l'|]; [|apply respects_raise].
  apply respects_bind; [by apply respects_account_assign|intros _].
  apply respects_bind.
  { apply respects_account_assign; [done|].
    intros acc. simpl. by apply prefix_app_r. }
  intros _.
  apply respects_bind; [apply respects_deref|intros p0].
  apply respects_bind; [apply respects_lift|intros valuation].
  by apply respects_account_assign.
Qed.

Lemma respects_close_positions s price :
  respects R (close_positions a s price).
Proof.
  unfold close_positions.
  apply respects_bind; [apply respects_gets|intros o].
  apply respects_bind; [apply respects_raise_if|intros _].
  apply respects_bind; [apply respects_symbol_not_in_market|intros absent].
  apply respects_bind; [apply respects_raise_if|intros _].
  apply respects_bind; [apply respects_account_attr|intros positions].
  apply respects_bind; [apply respects_gets|intros objects].
  apply respects_bind; [|intros _; apply respects_ret].
  apply respects_for_each. intros r. apply respects_close_position.
Qed.

(** Every call on the account [a]. *)
Lemma respects_exec (op : Op) :
  account_of op = Some a → respects R (exec op).
Proof.
  destruct op as [n d|n x|n s ty v sl tp|n r price|n s price|]; simpl;
    intros [= ->].
  - apply respects_open_account.
  - apply respects_deposit.
  - apply respects_bind; [apply respects_open_position|intros _].
    apply respects_ret.
  - apply respects_close_position.
  - apply respects_bind; [apply respects_close_positions|intros _].
    apply respects_ret.
Qed.

End Footprint.

(** A relation kept by every call is kept along every sequence. *)
Lemma trace_respects (R : t → t → Prop) :
  (∀ b, R b b) →
  (∀ b1 b2 b3, R b1 b2 → R b2 b3 → R b1 b3) →
  (∀ op, respects R (exec op)) →
  ∀ ops b, Forall (R b) (trace ops b).
Proof.
  intros Hrefl Htrans Hexec ops.
  induction ops as [|op ops IH]; intros b; simpl; [constructor|].
  destruct (exec op b) as [b' [[]|e]] eqn:He.
  - pose proof (Hexec op _ _ _ He) as Hb.
    constructor; [done|].
    eapply Forall_impl; [apply IH|]. intros b2 H2. by eapply Htrans.
  - constructor; [by eapply Hexec|constructor].
Qed.

Lemma exec_advance_time (b b' : t) (res : result unit) :
  exec AdvanceTime b = (b', res) →
  b' = set_market b (fst (Market.next_barset (market b))).
Proof.
  simpl. unfold bind, next_timestep.
  destruct (Market.next_barset (market b)) as [m o]. by intros [= <- _].
Qed.

(** *** The catalogue and the clock *)

Lemma market_kept_refl b : market_kept b b.
Proof. done. Qed.

Lemma market_kept_trans b1 b2 b3 :
  market_kept b1 b2 → market_kept b2 b3 → market_kept b1 b3.
Proof. intros (? & ? & ?) (? & ? & ?). repeat split; congruence. Qed.

Lemma exec_market_kept (a : string) (op : Op) :
  account_of op = Some a → respects market_kept (exec op).
Proof.
  apply respects_exec; try done.
  apply market_kept_trans.
Qed.

(** X5. The account and position calls ([open_account],
    [deposit_into_account], [open_position], [close_position],
    [close_positions]) never touch the clock or the catalogue of
    spreads, whether they return or raise: only [next_timestep] moves
    the time. *)
Theorem account_calls_keep_market (op : Op) (b b' : t) (res : result unit) :
  op ≠ AdvanceTime →
  exec op b = (b', res) →
  market b' = market b
  ∧ assets_spread b' = assets_spread b
  ∧ assets b' = assets b.
Proof.
  intros Hop He.
  destruct (account_of op) as [a|] eqn:Ha; [|by destruct op].
  exact (exec_market_kept a op Ha _ _ _ He).
Qed.

Lemma account_calls_keep_market_witness :
  market (after (take 5 desk_ops) desk) = market (after (take 4 desk_ops) desk)
  ∧ assets_spread (after (take 5 desk_ops) desk)
    = assets_spread (after (take 4 desk_ops) desk)
  ∧ assets (after (take 5 desk_ops) desk)
    = assets (after (take 4 desk_ops) desk).
Proof.
  apply (account_calls_keep_market
           (OpenPosition "a" "AAPL" "sell" 500 None None)
           (after (take 4 desk_ops) desk) _ (Ok tt)).
  - discriminate.
  - vm_compute. reflexivity.
Defined.

Lemma clock_forward_refl b : clock_forward b b.
Proof. by repeat split. Qed.

Lemma clock_forward_trans b1 b2 b3 :
  clock_forward b1 b2 → clock_forward b2 b3 → clock_forward b1 b3.
Proof.
  intros (? & ? & ? & ?) (? & ? & ? & ?).
  repeat split; try congruence. lia.
Qed.

Lemma exec_clock_forward (op : Op) : respects clock_forward (exec op).
Proof.
  intros b b' res He.
  destruct (account_of op) as [a|] eqn:Ha.
  - destruct (exec_market_kept a op Ha _ _ _ He) as (Hm & Hs & _).
    unfold clock_forward. rewrite Hm, Hs. by repeat split.
  - destruct op; try done.
    rewrite (exec_advance_time _ _ _ He). unfold clock_forward. simpl.
    unfold Market.next_barset.
    destruct (length (Market._bars (market b)) <=? Market.i (market b))%nat;
      simpl; repeat split; lia.
Qed.

(** X6. Along any sequence of engine calls, whatever returns or raises,
    the session's bars, its symbols and the spreads stay as they were
    and the cursor never moves back. *)
Theorem time_never_goes_back (ops : list Op) (b : t) :
  Forall (clock_forward b) (trace ops b).
Proof.
  apply trace_respects.
  - apply clock_forward_refl.
  - apply clock_forward_trans.
  - apply exec_clock_forward.
Qed.

(** *** Positions *)

Lemma store_kept_refl b : store_kept b b.
Proof. intros r p Hp. exists p. split; [done|]. apply same_opening_refl. Qed.

Lemma store_kept_same_store b b' : store b' = store b → store_kept b b'.
Proof.
  intros H r p Hp. exists p. rewrite H. split; [done|].
  apply same_opening_refl.
Qed.

Lemma store_kept_trans b1 b2 b3 :
  store_kept b1 b2 → store_kept b2 b3 → store_kept b1 b3.
Proof.
  intros H12 H23 r p Hp.
  destruct (H12 _ _ Hp) as (p2 & Hp2 & Hs2).
  destruct (H23 _ _ Hp2) as (p3 & Hp3 & Hs3).
  exists p3. split; [done|]. by eapply same_opening_trans.
Qed.

Lemma exec_store_kept (op : Op) : respects store_kept (exec op).
Proof.
  destruct (account_of op) as [a|] eqn:Ha.
  - apply (respects_exec a); try done.
    + apply store_kept_refl.
    + apply store_kept_trans.
    + intros b acc acc' _ _ _. by apply store_kept_same_store.
    + intros b d _. by apply store_kept_same_store.
    + intros b r p p' Hp Hs r0 p0 Hp0. simpl.
      destruct (decide (r = r0)) as [<-|Hne].
      * exists p'. rewrite list_lookup_insert_eq by (by eapply lookup_lt_Some).
        split; [done|]. congruence.
      * exists p0. rewrite list_lookup_insert_ne by done.
        split; [done|]. apply same_opening_refl.
    + intros b p r0 p0 Hp0. exists p0. simpl.
      split; [by apply lookup_app_l_Some|]. apply same_opening_refl.
  - destruct op; try done. intros b b' res He.
    rewrite (exec_advance_time _ _ _ He). by apply store_kept_same_store.
Qed.

(** X7. No engine call ever drops a position or rewrites what was
    recorded when it was opened.  Along any sequence of calls, returning
    or raising, a position stays under its reference with the same
    symbol, side, open price, open date, units, stop loss and take
    profit; and a position that has a close price never loses it. *)
Theorem positions_keep_opening_data (ops : list Op) (b : t) :
  Forall (λ b', ∀ r p, store b !! r = Some p →
            ∃ p', store b' !! r = Some p'
                  ∧ Position.symbol p' = Position.symbol p
                  ∧ Position.open_date p' = Position.open_date p
                  ∧ Position.position_type p' = Position.position_type p
                  ∧ Position.open_price p' = Position.open_price p
                  ∧ Position.units p' = Position.units p
                  ∧ Position.sl p' = Position.sl p
                  ∧ Position.tp p' = Position.tp p
                  ∧ (is_Some (Position.close_price p) →
                     is_Some (Position.close_price p')))
         (trace ops b).
Proof.
  apply (trace_respects store_kept).
  - apply store_kept_refl.
  - apply store_kept_trans.
  - apply exec_store_kept.
Qed.

(** *** Accounts *)

Lemma ledger_kept_refl b : ledger_kept b b.
Proof. intros n acc Hn. by exists acc. Qed.

Lemma ledger_kept_same_accounts b b' :
  accounts b' = accounts b → ledger_kept b b'.
Proof. intros H n acc Hn. exists acc. by rewrite H. Qed.

Lemma ledger_kept_trans b1 b2 b3 :
  ledger_kept b1 b2 → ledger_kept b2 b3 → ledger_kept b1 b3.
Proof.
  intros H12 H23 n acc Hn.
  destruct (H12 _ _ Hn) as (acc2 & Hn2 & Hname2 & Hh2).
  destruct (H23 _ _ Hn2) as (acc3 & Hn3 & Hname3 & Hh3).
  exists acc3. split; [done|]. split; [congruence|]. by etrans.
Qed.

Lemma exec_ledger_kept (op : Op) : respects ledger_kept (exec op).
Proof.
  destruct (account_of op) as [a|] eqn:Ha.
  - apply (respects_exec a); try done.
    + apply ledger_kept_refl.
    + apply ledger_kept_trans.
    + intros b acc acc' Hacc Hname Hh n acc0 Hn. simpl.
      destruct (decide (a = n)) as [<-|Hne].
      * exists acc'. rewrite lookup_insert_eq.
        rewrite Hacc in Hn. injection Hn as <-. done.
      * exists acc0. by rewrite lookup_insert_ne.
    + intros b d Hnone n acc0 Hn. simpl. exists acc0.
      rewrite lookup_insert_ne by congruence. done.
    + intros b r p p' _ _. by apply ledger_kept_same_accounts.
    + intros b p. by apply ledger_kept_same_accounts.
  - destruct op; try done. intros b b' res He.
    rewrite (exec_advance_time _ _ _ He). by apply ledger_kept_same_accounts.
Qed.

(** X8. Accounts are never removed or renamed, and an account's history
    only ever grows at its end: along any sequence of engine calls,
    returning or raising, every account is still filed under its key
    with the same [name], and its earlier history is a prefix of its
    later history. *)
Theorem accounts_persist_history_grows (ops : list Op) (b : t) :
  Forall (λ b', ∀ n acc, accounts b !! n = Some acc →
            ∃ acc', accounts b' !! n = Some acc'
                    ∧ BrokerAccount.name acc' = BrokerAccount.name acc
                    ∧ BrokerAccount.history acc
                      `prefix_of` BrokerAccount.history acc')
         (trace ops b).
Proof.
  apply (trace_respects ledger_kept).
  - apply ledger_kept_refl.
  - apply ledger_kept_trans.
  - apply exec_ledger_kept.
Qed.

(** ** Refusals *)

(** X10. Every method that takes an account name raises 'Account does
    not exist!' for a name that was never opened, whatever its other
    arguments, and leaves the state as it was. *)
Theorem unknown_account_refused (b : t) (n : string) :
  accounts b !! n = None →
  get_positions n b = (b, Raise AccountDoesNotExist)
  ∧ get_history n b = (b, Raise AccountDoesNotExist)
  ∧ get_account_balance n b = (b, Raise AccountDoesNotExist)
  ∧ (∀ x, deposit_into_account n x b = (b, Raise AccountDoesNotExist))
  ∧ (∀ s ty v sl tp,
       open_position n s ty v sl tp b = (b, Raise AccountDoesNotExist))
  ∧ (∀ r price, close_position n r price b = (b, Raise AccountDoesNotExist))
  ∧ (∀ s price, close_positions n s price b = (b, Raise AccountDoesNotExist)).
Proof.
  intros Hn. repeat split; intros; py_unfold; by rewrite Hn.
Qed.

Lemma unknown_account_refused_witness :
  get_positions "zed" desk = (desk, Raise AccountDoesNotExist)
  ∧ get_history "zed" desk = (desk, Raise AccountDoesNotExist)
  ∧ get_account_balance "zed" desk = (desk, Raise AccountDoesNotExist)
  ∧ (∀ x, deposit_into_account "zed" x desk = (desk, Raise AccountDoesNotExist))
  ∧ (∀ s ty v sl tp,
       open_position "zed" s ty v sl tp desk
       = (desk, Raise AccountDoesNotExist))
  ∧ (∀ r price,
       close_position "zed" r price desk = (desk, Raise AccountDoesNotExist))
  ∧ (∀ s price,
       close_positions "zed" s price desk = (desk, Raise AccountDoesNotExist)).
Proof. apply (unknown_account_refused desk "zed"). reflexivity. Defined.

(** X11. [open_position] reports the first check that fails, in the
    order account, symbol, funds, side: an unknown symbol (absent from
    the catalogue, or from the current bar) is reported even when the
    funds are short and the side is wrong, and short funds are
    reported even when the side is wrong.  Nothing is changed. *)
Theorem open_position_first_error b a s ty v sl tp acc :
  accounts b !! a = Some acc →
  (assets_spread b !! s = None →
     open_position a s ty v sl tp b = (b, Raise SymbolNotInMarket))
  ∧ (∀ spread row,
       assets_spread b !! s = Some spread →
       Market.curr_barset (market b) = Some row →
       columns row !! s = None →
       open_position a s ty v sl tp b = (b, Raise SymbolNotInMarket))
  ∧ (∀ spread row bar,
       assets_spread b !! s = Some spread →
       Market.curr_barset (market b) = Some row →
       columns row !! s = Some bar →
       (BrokerAccount.available acc < v)%Q →
       open_position a s ty v sl tp b = (b, Raise NotEnoughMoney)).
Proof.
  intros Ha. split; [|split].
  - intros Hs. by apply (open_position_no_spread _ _ _ _ _ _ _ acc).
  - intros spread row Hs Hr Hb.
    by apply (open_position_no_bar _ _ _ _ _ _ _ acc spread row).
  - intros spread row bar Hs Hr Hb Hlt.
    rewrite (open_position_eq _ _ _ _ _ _ _ acc spread row bar) by done.
    by rewrite (proj2 (Qltb_lt _ _) Hlt).
Qed.

Lemma open_position_first_error_witness :
  (open_position "b" "MSFT" "hold" 9999 None None (after desk_ops desk)
   = (after desk_ops desk, Raise SymbolNotInMarket))
  ∧ (open_position "b" "AAPL" "hold" 9999 None None
       (after desk_ops gap_desk)
     = (after desk_ops gap_desk, Raise SymbolNotInMarket))
  ∧ (open_position "b" "AAPL" "hold" 9999 None None (after desk_ops desk)
     = (after desk_ops desk, Raise NotEnoughMoney)).
Proof.
  split; [|split].
  - apply (proj1 (open_position_first_error (after desk_ops desk)
             "b" "MSFT" "hold" 9999%Q None None
             (BrokerAccount.mk "b" 500 [] []) eq_refl)).
    reflexivity.
  - apply (proj1 (proj2 (open_position_first_error
             (after desk_ops gap_desk)
             "b" "AAPL" "hold" 9999%Q None None
             (BrokerAccount.mk "b" 500 [] []) eq_refl))
             0.5%Q (mkBarset 571 {[ "GOOG" := flat_bar 1990 ]}));
      reflexivity.
  - apply (proj2 (proj2 (open_position_first_error (after desk_ops desk)
             "b" "AAPL" "hold" 9999%Q None None
             (BrokerAccount.mk "b" 500 [] []) eq_refl))
             0.5%Q (two_symbol_row 571 101 1990) (flat_bar 101));
      try reflexivity.
Defined.

(** X12. Once the session is exhausted (cursor at or past the last bar,
    or no bars at all) there is no current bar, and the calls that look
    a catalogued symbol up in it raise [TypeError], not one of the
    engine's own errors: [open_position], [close_positions], and
    [close_position] without a price.  The state is left as it was. *)
Theorem exhausted_session_type_error b a s acc spread :
  accounts b !! a = Some acc →
  assets_spread b !! s = Some spread →
  (length (Market._bars (market b)) ≤ Market.i (market b))%nat →
  (∀ ty v sl tp, open_position a s ty v sl tp b = (b, Raise TypeError))
  ∧ (∀ price, close_positions a s price b = (b, Raise TypeError))
  ∧ (∀ r p, store b !! r = Some p →
            close_position a r None b = (b, Raise TypeError)).
Proof.
  intros Ha Hs Hi. pose proof (curr_barset_exhausted _ Hi) as Hr.
  split; [|split].
  - intros ty v sl tp.
    by apply (open_position_no_barset _ _ _ _ _ _ _ acc spread).
  - intros price. py_unfold. rewrite Ha; simpl. rewrite Hs; simpl.
    by rewrite Hr.
  - intros r p Hp. py_unfold. rewrite Ha; simpl. rewrite Hr; simpl.
    by rewrite Hp.
Qed.

Lemma exhausted_session_type_error_witness :
  (∀ ty v sl tp,
     open_position "a" "AAPL" ty v sl tp (after [AdvanceTime; AdvanceTime] held)
     = (after [AdvanceTime; AdvanceTime] held, Raise TypeError))
  ∧ (∀ price,
       close_positions "a" "AAPL" price (after [AdvanceTime; AdvanceTime] held)
       = (after [AdvanceTime; AdvanceTime] held, Raise TypeError))
  ∧ (∀ r p, store (after [AdvanceTime; AdvanceTime] held) !! r = Some p →
       close_position "a" r None (after [AdvanceTime; AdvanceTime] held)
       = (after [AdvanceTime; AdvanceTime] held, Raise TypeError)).
Proof.
  apply (exhausted_session_type_error (after [AdvanceTime; AdvanceTime] held)
           "a" "AAPL" (BrokerAccount.mk "a" 0 [0%nat] []) 0.5%Q).
  - vm_compute. reflexivity.
  - reflexivity.
  - vm_compute. lia.
Defined.

(** ** Accounts *)

Lemma get_account_balance_eq (b : t) (n : string) (acc : BrokerAccount.t) :
  accounts b !! n = Some acc →
  get_account_balance n b = (b, Ok (BrokerAccount.available acc)).
Proof. intros H. py_unfold. rewrite H; simpl. by rewrite H. Qed.

Lemma get_positions_eq (b : t) (n : string) (acc : BrokerAccount.t) :
  accounts b !! n = Some acc →
  get_positions n b = (b, Ok (BrokerAccount.positions acc)).
Proof. intros H. py_unfold. rewrite H; simpl. by rewrite H. Qed.

Lemma get_history_eq (b : t) (n : string) (acc : BrokerAccount.t) :
  accounts b !! n = Some acc →
  get_history n b = (b, Ok (BrokerAccount.history acc)).
Proof. intros H. py_unfold. rewrite H; simpl. by rewrite H. Qed.

(** X13. A new account starts with exactly its initial deposit, no open
    position and an empty history, and a second [open_account] under
    the same name is refused with 'Account already exists!' without
    touching the account (its balance is not reset). *)
Theorem open_account_round_trip (b : t) (n : string) (d : Q) :
  accounts b !! n = None →
  ∃ b',
    open_account n d b = (b', Ok tt)
    ∧ get_account_balance n b' = (b', Ok d)
    ∧ get_positions n b' = (b', Ok [])
    ∧ get_history n b' = (b', Ok [])
    ∧ (∀ d', open_account n d' b' = (b', Raise AccountAlreadyExists)).
Proof.
  intros Hn. rewrite open_account_eq, Hn. eexists. split; [reflexivity|].
  set (acc := BrokerAccount.mk n d [] []).
  assert (Ha : accounts (set_accounts b (<[n:=acc]> (accounts b))) !! n
               = Some acc) by apply lookup_insert_eq.
  split; [exact (get_account_balance_eq _ _ _ Ha)|].
  split; [exact (get_positions_eq _ _ _ Ha)|].
  split; [exact (get_history_eq _ _ _ Ha)|].
  intros d'. rewrite open_account_eq. by rewrite Ha.
Qed.

Lemma open_account_round_trip_witness :
  ∃ b',
    open_account "c" 42 desk = (b', Ok tt)
    ∧ get_account_balance "c" b' = (b', Ok 42%Q)
    ∧ get_positions "c" b' = (b', Ok [])
    ∧ get_history "c" b' = (b', Ok [])
    ∧ (∀ d', open_account "c" d' b' = (b', Raise AccountAlreadyExists)).
Proof. apply (open_account_round_trip desk "c" 42%Q). reflexivity. Defined.

(** X14. [deposit_into_account] adds the amount to the balance and
    touches nothing else of the account; it checks no sign, so a
    negative amount is a withdrawal, and depositing [x] and then [-x]
    gives the balance back. *)
Theorem deposit_adds (b : t) (n : string) (x : Q) (acc : BrokerAccount.t) :
  accounts b !! n = Some acc →
  ∃ b' b'' y,
    deposit_into_account n x b = (b', Ok tt)
    ∧ get_account_balance n b'
      = (b', Ok (BrokerAccount.available acc + x)%Q)
    ∧ get_positions n b' = (b', Ok (BrokerAccount.positions acc))
    ∧ get_history n b' = (b', Ok (BrokerAccount.history acc))
    ∧ store b' = store b
    ∧ deposit_into_account n (- x) b' = (b'', Ok tt)
    ∧ get_account_balance n b'' = (b'', Ok y)
    ∧ (y == BrokerAccount.available acc)%Q.
Proof.
  intros Hn. rewrite deposit_into_account_eq, Hn.
  eexists _, _, _. split; [reflexivity|].
  split; [exact (get_account_balance_eq _ _ _ (lookup_insert_eq _ _ _))|].
  split; [exact (get_positions_eq _ _ _ (lookup_insert_eq _ _ _))|].
  split; [exact (get_history_eq _ _ _ (lookup_insert_eq _ _ _))|].
  split; [done|].
  split; [rewrite deposit_into_account_eq; simpl;
          by rewrite lookup_insert_eq|].
  split; [exact (get_account_balance_eq _ _ _ (lookup_insert_eq _ _ _))|].
  simpl. ring.
Qed.

Lemma deposit_adds_witness :
  ∃ b' b'' y,
    deposit_into_account "b" (-700) (after desk_ops desk) = (b', Ok tt)
    ∧ get_account_balance "b" b' = (b', Ok (500 + -700)%Q)
    ∧ get_positions "b" b' = (b', Ok [])
    ∧ get_history "b" b' = (b', Ok [])
    ∧ store b' = store (after desk_ops desk)
    ∧ deposit_into_account "b" (- -700) b' = (b'', Ok tt)
    ∧ get_account_balance "b" b'' = (b'', Ok y)
    ∧ (y == 500)%Q.
Proof.
  apply (deposit_adds (after desk_ops desk) "b" (-700)%Q
           (BrokerAccount.mk "b" 500 [] [])).
  reflexivity.
Defined.

(** ** Marking a position to market *)

(** X15. What a position is worth.  With [ref] the close price if the
    position is closed and the price passed in otherwise, a buy is
    valued at [units * ref] and a sell at [units * (2 * open_price -
    ref)]; with positive units a buy shows a profit exactly when [ref]
    is above the open price, and a sell exactly when it is below. *)
Theorem valuation_by_side (p : Position.t) (price : Q) :
  let ref := default price (Position.close_price p) in
  (Position.position_type p = "buy" →
     ∃ profit valuation,
       Position.get_profit p price = Ok profit
       ∧ Position.get_valuation p price = Ok valuation
       ∧ (valuation == Position.units p * ref)%Q
       ∧ ((0 < Position.units p)%Q →
          ((0 < profit)%Q ↔ (Position.open_price p < ref)%Q)))
  ∧ (Position.position_type p = "sell" →
       ∃ profit valuation,
         Position.get_profit p price = Ok profit
         ∧ Position.get_valuation p price = Ok valuation
         ∧ (valuation
            == Position.units p * (2 * Position.open_price p - ref))%Q
         ∧ ((0 < Position.units p)%Q →
            ((0 < profit)%Q ↔ (ref < Position.open_price p)%Q))).
Proof.
  intros ref. split; intros Hty.
  - eexists _, _. split; [by apply get_profit_buy|].
    split; [unfold Position.get_valuation; by rewrite get_profit_buy|].
    fold ref. split; [ring|]. intros Hu. split; intros H; nra.
  - eexists _, _. split; [by apply get_profit_sell|].
    split; [unfold Position.get_valuation; by rewrite get_profit_sell|].
    fold ref. split; [ring|]. intros Hu. split; intros H; nra.
Qed.

Lemma valuation_by_side_witness :
  (∃ profit valuation,
     Position.get_profit
       (Position.mk "AAPL" 570 "buy" 100 10 None None None None) 103
     = Ok profit
     ∧ Position.get_valuation
         (Position.mk "AAPL" 570 "buy" 100 10 None None None None) 103
       = Ok valuation
     ∧ (valuation == 10 * 103)%Q
     ∧ ((0 < 10)%Q → ((0 < profit)%Q ↔ (100 < 103)%Q)))
  ∧ (∃ profit valuation,
       Position.get_profit
         (Position.mk "AAPL" 570 "sell" 100 10 None None (Some 97%Q) None) 103
       = Ok profit
       ∧ Position.get_valuation
           (Position.mk "AAPL" 570 "sell" 100 10 None None (Some 97%Q) None)
           103
         = Ok valuation
       ∧ (valuation == 10 * (2 * 100 - 97))%Q
       ∧ ((0 < 10)%Q → ((0 < profit)%Q ↔ (97 < 100)%Q))).
Proof.
  split.
  - apply (proj1 (valuation_by_side
             (Position.mk "AAPL" 570 "buy" 100 10 None None None None) 103)).
    reflexivity.
  - apply (proj2 (valuation_by_side
             (Position.mk "AAPL" 570 "sell" 100 10 None None (Some 97%Q) None)
             103)).
    reflexivity.
Defined.

(** ** Opening, then closing *)

(** Opening a position at a price other than 0 and closing it at once,
    at a given price or at the market: the close returns, and the
    account moves by the profit recorded on the closed position. *)
Lemma open_close_run b a s ty v sl tp b1 r acc price :
  accounts b !! a = Some acc →
  open_position a s ty v sl tp b = (b1, Ok r) →
  (∀ p, store b1 !! r = Some p → ¬ (Position.open_price p == 0)%Q) →
  ∃ p spread row bar q p' b2 acc2 profit,
    store b1 !! r = Some p
    ∧ assets_spread b !! s = Some spread
    ∧ Market.curr_barset (market b) = Some row
    ∧ columns row !! s = Some bar
    ∧ q = default (close bar) price
    ∧ close_position a r price b1 = (b2, Ok tt)
    ∧ store b2 !! r = Some p'
    ∧ Position.units p' = Position.units p
    ∧ Position.get_profit p' q = Ok profit
    ∧ accounts b2 !! a = Some acc2
    ∧ (BrokerAccount.available acc2 == BrokerAccount.available acc + profit)%Q
    ∧ (price = None → (profit == - (Position.units p * spread))%Q).
Proof.
  intros Hacc H Hnz.
  apply open_position_inv in H
    as (acc' & spread & row & bar & Ha & Hs & Hr & Hb & Hv & Hty & -> & ->).
  rewrite Hacc in Ha. injection Ha as <-.
  pose proof (Hnz _ (opened_lookup _ _ _ _ _)) as Hz. simpl in Hz.
  clear Hnz.
  set (open_price := execution_price ty (close bar) spread) in *.
  set (p := Position.mk s (name row) ty open_price (v / open_price) sl tp
              None None).
  set (b1 := opened b a acc v p).
  set (q := default (close bar) price).
  set (c := if bool_decide (ty = "sell") then (q + spread)%Q else q).
  set (p' := Position.set_close_date (Position.set_close_price p (Some c))
               (Some (name row))).
  set (acc1 := BrokerAccount.mk (BrokerAccount.name acc)
                 (BrokerAccount.available acc - v)%Q
                 (BrokerAccount.positions acc ++ [length (store b)])
                 (BrokerAccount.history acc)).
  assert (Ha1 : accounts b1 !! a = Some acc1) by apply lookup_insert_eq.
  assert (Hp1 : store b1 !! length (store b) = Some p) by apply opened_lookup.
  assert (Hq : resolve_price (market b1) p price = Some q).
  { unfold resolve_price, q. destruct price as [q0|]; [done|]. simpl.
    rewrite Hr. simpl. by rewrite Hb. }
  assert (Hc : closing b1 price p = Some p').
  { unfold closing. rewrite Hq. simpl. rewrite Hr. unfold p', c.
    destruct (bool_decide (ty = "sell")); [|done]. by rewrite Hs. }
  destruct (list_remove_elem_of (length (store b))
              (BrokerAccount.positions acc ++ [length (store b)]))
    as [l' Hl']; [apply elem_of_app; right; constructor|].
  pose proof (units_times_price v open_price Hz) as Hu.
  assert (Hprofit : ∃ profit,
            Position.get_profit p' q = Ok profit
            ∧ (profit == v / open_price * (if bool_decide (ty = "sell")
                                           then - c + open_price
                                           else c - open_price))%Q).
  { destruct Hty as [-> | ->].
    - eexists. split; [by apply get_profit_buy|]. reflexivity.
    - eexists. split; [by apply get_profit_sell|]. reflexivity. }
  destruct Hprofit as (profit & Hpr & Hpreq).
  exists p, spread, row, bar, q, p'.
  exists (closed b1 a acc1 (length (store b)) p' l'
            (v / open_price * open_price + profit)%Q).
  eexists _, profit.
  split; [done|]. split; [done|]. split; [done|]. split; [done|].
  split; [done|]. split.
  { rewrite (close_position_eq _ _ _ _ acc1 p q p' Ha1 Hp1 Hq Hc).
    cbv zeta. subst acc1. fields. rewrite Hl'.
    unfold Position.get_valuation. by rewrite Hpr. }
  split.
  { simpl. apply list_lookup_insert_eq. rewrite length_app. simpl. lia. }
  split; [done|]. split; [done|].
  split; [apply lookup_insert_eq|]. subst acc1. fields.
  split; [rewrite Hu; ring|].
  intros ->. rewrite Hpreq.
  unfold c, q, p, open_price, execution_price. fields.
  destruct Hty as [-> | ->].
  - rewrite (bool_decide_eq_true_2 ("buy" = "buy")) by done.
    rewrite (bool_decide_eq_false_2 ("buy" = "sell")) by discriminate.
    ring.
  - rewrite (bool_decide_eq_true_2 ("sell" = "sell")) by done.
    rewrite (bool_decide_eq_false_2 ("sell" = "buy")) by discriminate.
    ring.
Qed.

(** X16. Settlement.  Opening a position at an open price other than
    0 and closing it at once, at any given price or at the market,
    always returns, and moves the account's cash by exactly the profit
    recorded on the position: [available] after the close is
    [available] before the open plus [get_profit] of the closed
    position (exact arithmetic). *)
Theorem open_close_settles_profit b a s ty v sl tp b1 r acc price :
  accounts b !! a = Some acc →
  open_position a s ty v sl tp b = (b1, Ok r) →
  (∀ p, store b1 !! r = Some p → ¬ (Position.open_price p == 0)%Q) →
  ∃ p' b2 acc2 profit,
    close_position a r price b1 = (b2, Ok tt)
    ∧ store b2 !! r = Some p'
    ∧ Position.get_profit p' 0 = Ok profit
    ∧ accounts b2 !! a = Some acc2
    ∧ (BrokerAccount.available acc2 == BrokerAccount.available acc + profit)%Q.
Proof.
  intros Hacc H Hnz.
  destruct (open_close_run _ _ _ _ _ _ _ _ _ _ price Hacc H Hnz)
    as (p & spread & row & bar & q & p' & b2 & acc2 & profit
        & Hp & Hs & Hr & Hb & Hq & Hclose & Hp' & Hu & Hpr & Hacc2 & Heq & _).
  exists p', b2, acc2, profit. repeat split; try done.
  apply close_position_inv in Hclose
    as (? & ? & ? & p'' & ? & ? & _ & _ & _ & Hc & _ & _ & ->).
  simpl in Hp'. destruct (closing_close_price _ _ _ _ Hc) as [c Hcp].
  rewrite list_lookup_insert_eq in Hp'
    by (by eapply lookup_lt_Some). injection Hp' as ->.
  rewrite <- Hpr. unfold Position.get_profit. by rewrite Hcp.
Qed.

Lemma open_close_settles_profit_witness :
  ∃ p' b2 acc2 profit,
    close_position "a" 0 (Some 110%Q) held = (b2, Ok tt)
    ∧ store b2 !! 0 = Some p'
    ∧ Position.get_profit p' 0 = Ok profit
    ∧ accounts b2 !! "a" = Some acc2
    ∧ (BrokerAccount.available acc2 == 1000 + profit)%Q.
Proof.
  apply (open_close_settles_profit
           (after [OpenAccount "a" 1000] (sample_broker 0.5 100 101))
           "a" "AAPL" "buy" 1000%Q None None held 0
           (BrokerAccount.mk "a" 1000 [] []) (Some 110%Q)).
  - reflexivity.
  - vm_compute. reflexivity.
  - intros p Hp. vm_compute in Hp. injection Hp as <-.
    vm_compute. discriminate.
Defined.

(** X17. The spread is paid once per round trip, on either side.
    Opening a position at an open price other than 0 and closing it at
    once at the market (no price given, same bar) costs exactly
    [units * spread], for a buy as for a sell: [available] after the
    close is [available] before the open minus [units * spread]. *)
Theorem round_trip_costs_spread b a s ty v sl tp b1 r acc :
  accounts b !! a = Some acc →
  open_position a s ty v sl tp b = (b1, Ok r) →
  (∀ p, store b1 !! r = Some p → ¬ (Position.open_price p == 0)%Q) →
  ∃ p spread b2 acc2,
    store b1 !! r = Some p
    ∧ assets_spread b !! s = Some spread
    ∧ close_position a r None b1 = (b2, Ok tt)
    ∧ accounts b2 !! a = Some acc2
    ∧ (BrokerAccount.available acc2
       == BrokerAccount.available acc - Position.units p * spread)%Q.
Proof.
  intros Hacc H Hnz.
  destruct (open_close_run _ _ _ _ _ _ _ _ _ _ None Hacc H Hnz)
    as (p & spread & row & bar & q & p' & b2 & acc2 & profit
        & Hp & Hs & Hr & Hb & Hq & Hclose & Hp' & Hu & Hpr & Hacc2 & Heq & Hnone).
  exists p, spread, b2, acc2. repeat split; try done.
  rewrite Heq, (Hnone eq_refl). ring.
Qed.

Lemma round_trip_costs_spread_witness :
  ∃ p spread b2 acc2,
    store held !! 0 = Some p
    ∧ assets_spread (after [OpenAccount "a" 1000] (sample_broker 0.5 100 101))
        !! "AAPL" = Some spread
    ∧ close_position "a" 0 None held = (b2, Ok tt)
    ∧ accounts b2 !! "a" = Some acc2
    ∧ (BrokerAccount.available acc2 == 1000 - Position.units p * spread)%Q.
Proof.
  apply (round_trip_costs_spread
           (after [OpenAccount "a" 1000] (sample_broker 0.5 100 101))
           "a" "AAPL" "buy" 1000%Q None None held 0
           (BrokerAccount.mk "a" 1000 [] [])).
  - reflexivity.
  - vm_compute. reflexivity.
  - intros p Hp. vm_compute in Hp. injection Hp as <-.
    vm_compute. discriminate.
Defined.

(** ** Closing every position of a symbol *)

(** Taking the first selected element out of a list. *)
Lemma list_remove_filter (P : nat → Prop) `{!∀ x, Decision (P x)}
    (l : list nat) (r : nat) (rs : list nat) :
  filter P l = r :: rs →
  ∃ l', list_remove r l = Some l'
        ∧ filter P l' = rs
        ∧ filter (λ x, ¬ P x) l' = filter (λ x, ¬ P x) l.
Proof.
  induction l as [|x l IH]; intros Hsel; [done|].
  destruct (decide (P x)) as [Hx|Hx].
  - rewrite filter_cons_True in Hsel by done. injection Hsel as -> <-.
    exists l. simpl. rewrite decide_True by done.
    split; [done|]. split; [done|].
    by rewrite (filter_cons_False (λ x, ¬ P x)) by auto.
  - rewrite filter_cons_False in Hsel by done.
    destruct (IH Hsel) as (l' & Hl' & Hf & Hn).
    assert (P r) as Hr.
    { assert (r ∈ filter P l) as Hin by (rewrite Hsel; constructor).
      by apply list_elem_of_filter in Hin as [? _]. }
    exists (x :: l'). simpl.
    rewrite decide_False by (intros ->; contradiction).
    rewrite Hl'. split; [done|].
    split; [by rewrite filter_cons_False|].
    rewrite !(filter_cons_True (λ x, ¬ P x)) by done. by rewrite Hn.
Qed.

(** Rewriting the closing fields of a position does not change which
    references are selected for a symbol. *)
Lemma select_symbol_insert (st : list Position.t) (r : nat)
    (p p' : Position.t) (s : string) (l : list nat) :
  st !! r = Some p → Position.symbol p' = Position.symbol p →
  select_symbol (<[r := p']> st) s l = select_symbol st s l
  ∧ filter (λ x, ¬ (Position.symbol <$> <[r := p']> st !! x = Some s)) l
    = filter (λ x, ¬ (Position.symbol <$> st !! x = Some s)) l.
Proof.
  intros Hp Hs.
  assert (Hiff : ∀ x, Position.symbol <$> <[r := p']> st !! x
                      = Position.symbol <$> st !! x).
  { intros x. destruct (decide (r = x)) as [<-|Hne].
    - rewrite list_lookup_insert_eq by (by eapply lookup_lt_Some).
      rewrite Hp. simpl. by rewrite Hs.
    - by rewrite list_lookup_insert_ne. }
  split; apply list_filter_iff; intros x; by rewrite Hiff.
Qed.

Lemma close_position_store_kept a r price :
  respects store_kept (close_position a r price).
Proof. exact (exec_store_kept (ClosePosition a r price)). Qed.

(** The loop of [close_positions] on an account whose selected
    positions all carry a valid side, during the session. *)
Lemma close_loop_run a s price spread row bar : ∀ rs b acc,
  accounts b !! a = Some acc →
  assets_spread b !! s = Some spread →
  Market.curr_barset (market b) = Some row →
  columns row !! s = Some bar →
  open_for b s acc = rs →
  Forall (λ r, ∀ p, store b !! r = Some p →
            Position.position_type p = "buy"
            ∨ Position.position_type p = "sell") rs →
  ∃ b' acc',
    for_each rs (λ p, close_position a p price) b = (b', Ok tt)
    ∧ accounts b' !! a = Some acc'
    ∧ BrokerAccount.positions acc' = open_for_others b s acc
    ∧ BrokerAccount.history acc' = BrokerAccount.history acc ++ rs
    ∧ Forall (λ r, ∃ p', store b' !! r = Some p'
                         ∧ is_Some (Position.close_price p')) rs.
Proof.
  induction rs as [|r rs IH]; intros b acc Ha Hs Hr Hb Hsel Hty.
  - exists b, acc. simpl. split; [done|]. split; [done|].
    split; [|by rewrite app_nil_r].
    unfold open_for, select_symbol in Hsel. unfold open_for_others.
    induction (BrokerAccount.positions acc) as [|x l IHl]; [done|].
    destruct (decide (Position.symbol <$> store b !! x = Some s)) as [Hx|Hx].
    + by rewrite filter_cons_True in Hsel.
    + rewrite filter_cons_False in Hsel by done.
      rewrite filter_cons_True by done. by rewrite <- IHl.
  - apply Forall_cons in Hty as [Hty_r Hty_rs].
    assert (r ∈ open_for b s acc) as Hin by (rewrite Hsel; constructor).
    apply list_elem_of_filter in Hin as [Hsym _].
    destruct (store b !! r) as [p|] eqn:Hp; [|done].
    simpl in Hsym. injection Hsym as Hsym.
    set (q := default (close bar) price).
    set (c := if bool_decide (Position.position_type p = "sell")
              then (q + spread)%Q else q).
    set (p' := Position.set_close_date (Position.set_close_price p (Some c))
                 (Some (name row))).
    assert (Hq : resolve_price (market b) p price = Some q).
    { unfold resolve_price, q. destruct price as [q0|]; [done|]. simpl.
      rewrite Hr. simpl. rewrite Hsym. by rewrite Hb. }
    assert (Hc : closing b price p = Some p').
    { unfold closing. rewrite Hq. simpl. rewrite Hr. unfold p', c.
      destruct (bool_decide (Position.position_type p = "sell")); [|done].
      rewrite Hsym. by rewrite Hs. }
    destruct (list_remove_filter _ _ _ _ Hsel) as (l' & Hl' & Hf & Hn).
    assert (∃ val, Position.get_valuation p' q = Ok val) as [val Hval].
    { unfold Position.get_valuation.
      destruct (Hty_r p eq_refl) as [Hside|Hside];
        [rewrite get_profit_buy by done|rewrite get_profit_sell by done];
        by eexists. }
    pose proof (close_position_eq _ _ _ _ _ _ _ _ Ha Hp Hq Hc) as Hrun.
    cbv zeta in Hrun. rewrite Hl', Hval in Hrun.
    set (acc1 := BrokerAccount.mk (BrokerAccount.name acc)
                   (BrokerAccount.available acc + val)%Q l'
                   (BrokerAccount.history acc ++ [r])).
    set (b1 := closed b a acc r p' l' val) in *.
    destruct (select_symbol_insert (store b) r p p' s l' Hp eq_refl)
      as [Hsel1 Hoth1].
    destruct (IH b1 acc1) as (b' & acc' & Hloop & Ha' & Hpos & Hhist & Hclosed).
    + apply lookup_insert_eq.
    + done.
    + done.
    + done.
    + unfold open_for. simpl. by rewrite Hsel1.
    + apply Forall_forall. intros r0 Hr0 p0 Hp0.
      rewrite Forall_forall in Hty_rs. simpl in Hp0.
      destruct (decide (r = r0)) as [<-|Hne].
      * rewrite list_lookup_insert_eq in Hp0 by (by eapply lookup_lt_Some).
        injection Hp0 as <-. exact (Hty_r p eq_refl).
      * rewrite list_lookup_insert_ne in Hp0 by done. by apply (Hty_rs r0).
    + exists b', acc'. split.
      { simpl. by rewrite (bind_ok _ _ _ _ _ Hrun). }
      split; [done|]. split.
      { rewrite Hpos. unfold open_for_others. simpl. by rewrite Hoth1, Hn. }
      split.
      { rewrite Hhist. simpl. by rewrite <- app_assoc. }
      constructor; [|done].
      destruct (close_position_store_kept a r price b b1 (Ok tt) Hrun r p Hp)
        as (p1 & Hp1 & _).
      assert (store b1 !! r = Some p') as Hp1'.
      { simpl. apply list_lookup_insert_eq. by eapply lookup_lt_Some. }
      assert (respects store_kept
                (for_each rs (λ p, close_position a p price))) as Hrest.
      { apply (respects_for_each store_kept).
        - apply store_kept_refl.
        - apply store_kept_trans.
        - intros x. apply close_position_store_kept. }
      destruct (Hrest _ _ _ Hloop r p' Hp1') as (p2 & Hp2 & Hs2).
      exists p2. split; [done|].
      apply Hs2. by eexists.
Qed.

Lemma close_positions_eq b a s price acc spread row bar :
  accounts b !! a = Some acc →
  assets_spread b !! s = Some spread →
  Market.curr_barset (market b) = Some row →
  columns row !! s = Some bar →
  close_positions a s price b
  = bind (for_each (open_for b s acc) (λ p, close_position a p price))
      (λ _, ret (open_for b s acc)) b.
Proof.
  intros Ha Hs Hr Hb. unfold close_positions.
  erewrite bind_ok by reflexivity. rewrite Ha.
  erewrite bind_ok by reflexivity.
  erewrite (bind_ok (symbol_not_in_market s) _ b b false)
    by (py_unfold; rewrite Hs; simpl; rewrite Hr; simpl; by rewrite Hb).
  erewrite bind_ok by reflexivity.
  erewrite (bind_ok (account_attr a BrokerAccount.positions) _ b b)
    by (py_unfold; by rewrite Ha).
  erewrite bind_ok by reflexivity.
  reflexivity.
Qed.

(** X18. [close_positions] during the session, on an account whose open
    positions for the symbol all carry the side 'buy' or 'sell':
    the call returns the account's open positions for that symbol, in
    the order of the open list; afterwards the open list holds exactly
    the positions of the other symbols, in their old order, the history
    has grown by the returned positions in that same order, and each of
    them has a close price. *)
Theorem close_positions_moves_symbol b a s price acc spread row bar :
  accounts b !! a = Some acc →
  assets_spread b !! s = Some spread →
  Market.curr_barset (market b) = Some row →
  columns row !! s = Some bar →
  Forall (λ r, ∀ p, store b !! r = Some p →
            Position.position_type p = "buy"
            ∨ Position.position_type p = "sell") (open_for b s acc) →
  ∃ b' acc',
    close_positions a s price b = (b', Ok (open_for b s acc))
    ∧ accounts b' !! a = Some acc'
    ∧ BrokerAccount.positions acc' = open_for_others b s acc
    ∧ BrokerAccount.history acc'
      = BrokerAccount.history acc ++ open_for b s acc
    ∧ Forall (λ r, ∃ p', store b' !! r = Some p'
                         ∧ is_Some (Position.close_price p'))
             (open_for b s acc).
Proof.
  intros Ha Hs Hr Hb Hty.
  destruct (close_loop_run a s price spread row bar _ b acc Ha Hs Hr Hb
              eq_refl Hty)
    as (b' & acc' & Hloop & Ha' & Hpos & Hhist & Hclosed).
  exists b', acc'. split; [|done].
  rewrite (close_positions_eq _ _ _ _ acc spread row bar) by done.
  by rewrite (bind_ok _ _ _ _ _ Hloop).
Qed.

Lemma close_positions_moves_symbol_witness :
  ∃ b' acc',
    close_positions "a" "AAPL" None (after desk_ops desk)
    = (b', Ok (open_for (after desk_ops desk) "AAPL"
                 (BrokerAccount.mk "a" 6500 [0; 1; 2] [])))
    ∧ accounts b' !! "a" = Some acc'
    ∧ BrokerAccount.positions acc'
      = open_for_others (after desk_ops desk) "AAPL"
          (BrokerAccount.mk "a" 6500 [0; 1; 2] [])
    ∧ BrokerAccount.history acc'
      = BrokerAccount.history (BrokerAccount.mk "a" 6500 [0; 1; 2] [])
        ++ open_for (after desk_ops desk) "AAPL"
             (BrokerAccount.mk "a" 6500 [0; 1; 2] [])
    ∧ Forall (λ r, ∃ p', store b' !! r = Some p'
                         ∧ is_Some (Position.close_price p'))
             (open_for (after desk_ops desk) "AAPL"
                (BrokerAccount.mk "a" 6500 [0; 1; 2] [])).
Proof.
  apply (close_positions_moves_symbol (after desk_ops desk) "a" "AAPL" None
           (BrokerAccount.mk "a" 6500 [0; 1; 2] []) 0.5%Q
           (two_symbol_row 571 101 1990) (flat_bar 101)).
  - vm_compute. reflexivity.
  - reflexivity.
  - reflexivity.
  - reflexivity.
  - vm_compute.
    constructor; [intros p [= <-]; by left|].
    constructor; [intros p [= <-]; by right|].
    constructor.
Defined.

(** X19. [close_positions] for a symbol the account holds no open
    position in returns the empty list and changes nothing (the account
    and the symbol being known, during the session). *)
Theorem close_positions_nothing_open b a s price acc spread row bar :
  accounts b !! a = Some acc →
  assets_spread b !! s = Some spread →
  Market.curr_barset (market b) = Some row →
  columns row !! s = Some bar →
  open_for b s acc = [] →
  close_positions a s price b = (b, Ok []).
Proof.
  intros Ha Hs Hr Hb Hnone.
  rewrite (close_positions_eq _ _ _ _ acc spread row bar) by done.
  by rewrite Hnone.
Qed.

Lemma close_positions_nothing_open_witness :
  close_positions "b" "GOOG" (Some 5%Q) (after desk_ops desk)
  = (after desk_ops desk, Ok []).
Proof.
  apply (close_positions_nothing_open (after desk_ops desk) "b" "GOOG"
           (Some 5%Q) (BrokerAccount.mk "b" 500 [] []) 2%Q
           (two_symbol_row 571 101 1990) (flat_bar 1990));
    reflexivity.
Defined.

(** ** Building a broker *)

Lemma catalogue_lookup (assets : list Asset.t) (s : string) :
  foldl (λ d a, <[Asset.symbol a := Asset.spread a]> d)
        (∅ : gmap string Q) assets !! s
  = Asset.spread <$> last (filter (λ a, Asset.symbol a = s) assets).
Proof.
  induction assets as [|a l IH] using rev_ind; [done|].
  rewrite foldl_snoc, filter_app.
  destruct (decide (Asset.symbol a = s)) as [<-|Hne].
  - rewrite lookup_insert_eq.
    rewrite (filter_cons_True (λ a0, Asset.symbol a0 = Asset.symbol a)) by done.
    rewrite filter_nil. by rewrite last_snoc.
  - rewrite lookup_insert_ne by done.
    rewrite (filter_cons_False (λ a0, Asset.symbol a0 = s)) by done.
    rewrite filter_nil, app_nil_r. apply IH.
Qed.

(** X20. A broker that could be built starts with no account, and its
    catalogue gives, for a symbol, the spread of the last asset listed
    under that symbol (a later asset overrides an earlier one with the
    same symbol) and nothing for a symbol that is not listed; its
    market carries the assets' symbols in their order, with the cursor
    on the first bar. *)
Theorem broker_init_catalogue (now : Timestamp) (api : Market.Api)
    (assets : list Asset.t) (date : option Timestamp) (b : t) :
  init now api assets date = Ok b →
  accounts b = ∅
  ∧ Broker.assets b = assets
  ∧ Market.symbols (market b) = Asset.symbol <$> assets
  ∧ Market.i (market b) = 0%nat
  ∧ (∀ s, assets_spread b !! s
          = Asset.spread <$> last (filter (λ a, Asset.symbol a = s) assets))
  ∧ (∀ s, s ∉ (Asset.symbol <$> assets) → assets_spread b !! s = None)
  ∧ (∀ n, get_account_balance n b = (b, Raise AccountDoesNotExist)).
Proof.
  unfold init, Market.init. intros H.
  destruct (Market.load_day _ _ _) as [m [[]|e]] eqn:Hload; [|done].
  injection H as <-. simpl.
  assert (Market.symbols m = Asset.symbol <$> assets ∧ Market.i m = 0%nat)
    as [Hsym Hi].
  { unfold Market.load_day in Hload. simpl in Hload.
    destruct (api _ _ _) as [data|e]; [|done]. by injection Hload as <-. }
  split; [done|]. split; [done|]. split; [done|]. split; [done|].
  split; [apply catalogue_lookup|]. split.
  - intros s Hs. rewrite catalogue_lookup.
    destruct (filter (λ a, Asset.symbol a = s) assets) as [|a l] eqn:Hf;
      [done|].
    exfalso. apply Hs.
    assert (a ∈ filter (λ a, Asset.symbol a = s) assets) as Hin
      by (rewrite Hf; constructor).
    apply list_elem_of_filter in Hin as [<- Hin].
    by apply list_elem_of_fmap_2.
  - intros n. py_unfold. simpl. by rewrite lookup_empty.
Qed.

Lemma broker_init_catalogue_witness :
  ∃ b,
    init 0 sample_feed
      [Asset.mk "AAPL" 0.5; Asset.mk "GOOG" 2; Asset.mk "AAPL" 0.75]
      (Some 1500%Z) = Ok b
    ∧ accounts b = ∅
    ∧ Broker.assets b
      = [Asset.mk "AAPL" 0.5; Asset.mk "GOOG" 2; Asset.mk "AAPL" 0.75]
    ∧ Market.symbols (market b)
      = Asset.symbol
        <$> [Asset.mk "AAPL" 0.5; Asset.mk "GOOG" 2; Asset.mk "AAPL" 0.75]
    ∧ Market.i (market b) = 0%nat
    ∧ (∀ s, assets_spread b !! s
            = Asset.spread
              <$> last (filter (λ a, Asset.symbol a = s)
                          [Asset.mk "AAPL" 0.5; Asset.mk "GOOG" 2;
                           Asset.mk "AAPL" 0.75]))
    ∧ (∀ s, s ∉ (Asset.symbol
                  <$> [Asset.mk "AAPL" 0.5; Asset.mk "GOOG" 2;
                       Asset.mk "AAPL" 0.75]) →
            assets_spread b !! s = None)
    ∧ (∀ n, get_account_balance n b = (b, Raise AccountDoesNotExist)).
Proof.
  eexists. split; [vm_compute; reflexivity|].
  apply (broker_init_catalogue 0 sample_feed
           [Asset.mk "AAPL" 0.5; Asset.mk "GOOG" 2; Asset.mk "AAPL" 0.75]
           (Some 1500%Z)).
  vm_compute. reflexivity.
Defined.

(** X21. [Broker.reset] without a date takes the engine back to the
    first bar of the session and keeps every account and every position
    as it is, open ones included (the docstring's warning): prices are
    then read from the first bar again.  With a date it raises
    [NameError] and changes nothing. *)
Theorem broker_reset_rewinds (b : t) :
  (∃ b',
     reset None b = (b', Ok tt)
     ∧ accounts b' = accounts b
     ∧ store b' = store b
     ∧ assets_spread b' = assets_spread b
     ∧ Market._bars (market b') = Market._bars (market b)
     ∧ curr_barset b' = (b', Ok (head (Market._bars (market b)))))
  ∧ (∀ d, reset (Some d) b = (b, Raise NameError)).
Proof.
  split.
  - eexists. split; [reflexivity|]. simpl. repeat split.
    unfold curr_barset, market_curr_barset, gets, Market.curr_barset. simpl.
    by destruct (Market._bars (market b)).
  - intros d. unfold reset. simpl. by destruct b.
Qed.

(** ** What a returning call has done to the account *)

(** X22. When [open_position] returns, the reference it hands out is
    new; the position behind it is open (no close price, no close
    date), carries the symbol, side, stop loss and take profit that
    were passed and the timestamp of the current bar; it is the last
    entry of the account's open list; the balance has gone down by the
    requested cash; and the history is as before. *)
Theorem open_position_effect b a s ty v sl tp b' r acc :
  accounts b !! a = Some acc →
  open_position a s ty v sl tp b = (b', Ok r) →
  store b !! r = None
  ∧ (∃ p row,
       store b' !! r = Some p
       ∧ Market.curr_barset (market b) = Some row
       ∧ Position.symbol p = s
       ∧ Position.position_type p = ty
       ∧ Position.open_date p = name row
       ∧ Position.sl p = sl
       ∧ Position.tp p = tp
       ∧ Position.close_price p = None
       ∧ Position.close_date p = None)
  ∧ get_positions a b' = (b', Ok (BrokerAccount.positions acc ++ [r]))
  ∧ get_history a b' = (b', Ok (BrokerAccount.history acc))
  ∧ get_account_balance a b'
    = (b', Ok (BrokerAccount.available acc - v)%Q).
Proof.
  intros Hacc H.
  apply open_position_inv in H
    as (acc' & spread & row & bar & Ha & Hs & Hr & Hb & Hv & Hty & -> & ->).
  rewrite Hacc in Ha. injection Ha as <-.
  split; [by apply lookup_ge_None|].
  split; [eexists _, row; split; [apply opened_lookup|done]|].
  split; [exact (get_positions_eq _ _ _ (lookup_insert_eq _ _ _))|].
  split; [exact (get_history_eq _ _ _ (lookup_insert_eq _ _ _))|].
  exact (get_account_balance_eq _ _ _ (lookup_insert_eq _ _ _)).
Qed.

Lemma open_position_effect_witness :
  store (after (take 4 desk_ops) desk) !! 2 = None
  ∧ (∃ p row,
       store (after (take 5 desk_ops) desk) !! 2 = Some p
       ∧ Market.curr_barset (market (after (take 4 desk_ops) desk)) = Some row
       ∧ Position.symbol p = "AAPL"
       ∧ Position.position_type p = "sell"
       ∧ Position.open_date p = name row
       ∧ Position.sl p = None
       ∧ Position.tp p = None
       ∧ Position.close_price p = None
       ∧ Position.close_date p = None)
  ∧ get_positions "a" (after (take 5 desk_ops) desk)
    = (after (take 5 desk_ops) desk, Ok [0; 1; 2])
  ∧ get_history "a" (after (take 5 desk_ops) desk)
    = (after (take 5 desk_ops) desk, Ok [])
  ∧ get_account_balance "a" (after (take 5 desk_ops) desk)
    = (after (take 5 desk_ops) desk, Ok (7000 - 500)%Q).
Proof.
  apply (open_position_effect (after (take 4 desk_ops) desk)
           "a" "AAPL" "sell" 500%Q None None
           (after (take 5 desk_ops) desk) 2
           (BrokerAccount.mk "a" 7000 [0; 1] [])).
  - vm_compute. reflexivity.
  - vm_compute. reflexivity.
Defined.

(** X23. [close_position] on a position that is in the account's open
    list, carries a valid side and has a catalogued symbol, during the
    session and with a price to work with (given, or the current close
    of the symbol), always returns.  The position leaves the open list
    (its first occurrence is removed), joins the end of the history,
    records the price (plus the spread for a sell) and the timestamp of
    the current bar, and the balance goes up by its valuation. *)
Theorem close_position_effect b a r price acc p q spread row :
  accounts b !! a = Some acc →
  store b !! r = Some p →
  r ∈ BrokerAccount.positions acc →
  Position.position_type p = "buy" ∨ Position.position_type p = "sell" →
  assets_spread b !! Position.symbol p = Some spread →
  Market.curr_barset (market b) = Some row →
  resolve_price (market b) p price = Some q →
  ∃ b' acc' p' v,
    close_position a r price b = (b', Ok tt)
    ∧ accounts b' !! a = Some acc'
    ∧ list_remove r (BrokerAccount.positions acc)
      = Some (BrokerAccount.positions acc')
    ∧ BrokerAccount.history acc' = BrokerAccount.history acc ++ [r]
    ∧ store b' !! r = Some p'
    ∧ Position.close_price p'
      = Some (if bool_decide (Position.position_type p = "sell")
              then (q + spread)%Q else q)
    ∧ Position.close_date p' = Some (name row)
    ∧ Position.get_valuation p' q = Ok v
    ∧ BrokerAccount.available acc' = (BrokerAccount.available acc + v)%Q
    ∧ market b' = market b.
Proof.
  intros Ha Hp Hin Hty Hs Hr Hq.
  set (c := if bool_decide (Position.position_type p = "sell")
            then (q + spread)%Q else q).
  set (p' := Position.set_close_date (Position.set_close_price p (Some c))
               (Some (name row))).
  assert (Hc : closing b price p = Some p').
  { unfold closing. rewrite Hq. simpl. rewrite Hr. unfold p', c.
    destruct (bool_decide (Position.position_type p = "sell")); [|done].
    by rewrite Hs. }
  destruct (list_remove_elem_of _ _ Hin) as [l' Hl'].
  assert (∃ v, Position.get_valuation p' q = Ok v) as [v Hv].
  { unfold Position.get_valuation.
    destruct Hty as [Hside|Hside];
      [rewrite get_profit_buy by done|rewrite get_profit_sell by done];
      by eexists. }
  exists (closed b a acc r p' l' v).
  exists (BrokerAccount.mk (BrokerAccount.name acc)
            (BrokerAccount.available acc + v)%Q l'
            (BrokerAccount.history acc ++ [r])), p', v.
  split.
  { rewrite (close_position_eq _ _ _ _ _ _ _ _ Ha Hp Hq Hc).
    cbv zeta. by rewrite Hl', Hv. }
  split; [apply lookup_insert_eq|].
  split; [done|]. split; [done|].
  split; [simpl; apply list_lookup_insert_eq; by eapply lookup_lt_Some|].
  done.
Qed.

Lemma close_position_effect_witness :
  ∃ b' acc' p' v,
    close_position "a" 1 None (after desk_ops desk) = (b', Ok tt)
    ∧ accounts b' !! "a" = Some acc'
    ∧ list_remove 1 [0; 1; 2] = Some (BrokerAccount.positions acc')
    ∧ BrokerAccount.history acc' = [] ++ [1]
    ∧ store b' !! 1 = Some p'
    ∧ Position.close_price p'
      = Some (if bool_decide ("sell" = "sell") then (1990 + 2)%Q else 1990%Q)
    ∧ Position.close_date p' = Some 571%Z
    ∧ Position.get_valuation p' 1990 = Ok v
    ∧ BrokerAccount.available acc' = (6500 + v)%Q
    ∧ market b' = market (after desk_ops desk).
Proof.
  apply (close_position_effect (after desk_ops desk) "a" 1 None
           (BrokerAccount.mk "a" 6500 [0; 1; 2] [])
           (Position.mk "GOOG" 570 "sell" 2000 (2000 / 2000) None None
              None None)
           1990%Q 2%Q (two_symbol_row 571 101 1990)).
  - vm_compute. reflexivity.
  - vm_compute. reflexivity.
  - vm_compute. apply list_elem_of_In. simpl. auto.
  - by right.
  - reflexivity.
  - reflexivity.
  - reflexivity.
Defined.

(** ** Histories hold closed positions *)

Lemma triple_bind {A B} (P : t → Prop) (c : Py A) (Q : A → t → Prop)
    (k : A → Py B) (Q' : B → t → Prop) (E : t → Prop) :
  triple P c Q E → (∀ x, triple (Q x) (k x) Q' E) →
  triple P (bind c k) Q' E.
Proof.
  intros Hc Hk b Hb. unfold bind. specialize (Hc b Hb).
  destruct (c b) as [b1 [x|e]]; [|done]. by apply Hk.
Qed.

Lemma triple_post {A} (P : t → Prop) (c : Py A) (Q Q' : A → t → Prop)
    (E : t → Prop) :
  triple P c Q E → (∀ x b, Q x b → Q' x b) → triple P c Q' E.
Proof.
  intros Hc HQ b Hb. specialize (Hc b Hb).
  destruct (c b) as [b1 [x|e]]; [by apply HQ|done].
Qed.

Lemma closed_with_history extra b : closed_with extra b → history_closed b.
Proof. by intros [H _]. Qed.

(** A statement that leaves the state alone. *)
Lemma triple_pure {A} (extra : list ref) (c : Py A) :
  (∀ b, fst (c b) = b) →
  triple (closed_with extra) c (λ _, closed_with extra) history_closed.
Proof.
  intros H b Hb. specialize (H b).
  destruct (c b) as [b1 [x|e]]; simpl in H; subst b1; [done|].
  by eapply closed_with_history.
Qed.

Lemma triple_raise {A} (extra : list ref) (e : exn) (Q : A → t → Prop) :
  triple (closed_with extra) (raise e) Q history_closed.
Proof. intros b Hb. by eapply closed_with_history. Qed.

Lemma closed_at_same_store b b' r :
  store b' = store b → closed_at b r → closed_at b' r.
Proof. unfold closed_at. by intros ->. Qed.

(** Assigning an attribute of an account: every reference of the new
    history was in the old one, or is known to be closed. *)
Lemma triple_account_assign (extra : list ref) (n : string)
    (f : BrokerAccount.t → BrokerAccount.t) :
  (∀ acc r, r ∈ BrokerAccount.history (f acc) →
            r ∈ BrokerAccount.history acc ∨ r ∈ extra) →
  triple (closed_with extra) (account_assign n f)
    (λ _, closed_with extra) history_closed.
Proof.
  intros Hf b [Hh Hex]. py_unfold.
  destruct (accounts b !! n) as [acc|] eqn:Hn; simpl; [|done].
  split.
  - intros n0 acc0 r. simpl. intros Hn0 Hr.
    apply (closed_at_same_store b); [done|].
    destruct (decide (n = n0)) as [<-|Hne].
    + rewrite lookup_insert_eq in Hn0. injection Hn0 as <-.
      destruct (Hf _ _ Hr) as [Hold|Hnew]; [by eapply Hh|].
      rewrite Forall_forall in Hex. by apply Hex.
    + rewrite lookup_insert_ne in Hn0 by done. by eapply Hh.
  - eapply Forall_impl; [done|]. intros r.
    by apply closed_at_same_store.
Qed.

Lemma closed_at_insert b r r0 p p' :
  store b !! r = Some p →
  (is_Some (Position.close_price p) → is_Some (Position.close_price p')) →
  closed_at b r0 →
  closed_at (set_store b (<[r := p']> (store b))) r0.
Proof.
  intros Hp Hcl (p0 & Hp0 & Hc0). unfold closed_at. simpl.
  destruct (decide (r = r0)) as [<-|Hne].
  - exists p'. rewrite list_lookup_insert_eq by (by eapply lookup_lt_Some).
    split; [done|]. apply Hcl. congruence.
  - exists p0. by rewrite list_lookup_insert_ne.
Qed.

(** Assigning a field of a position, when a closed position stays
    closed. *)
Lemma triple_assign (extra : list ref) (r : ref)
    (f : Position.t → Position.t) :
  (∀ p, is_Some (Position.close_price p) →
        is_Some (Position.close_price (f p))) →
  triple (closed_with extra) (assign r f)
    (λ _, closed_with extra) history_closed.
Proof.
  intros Hf b [Hh Hex]. py_unfold.
  destruct (store b !! r) as [p|] eqn:Hp; simpl; [|done].
  split.
  - intros n acc r0 Hn Hr0. apply (closed_at_insert _ _ _ p); auto.
    by eapply Hh.
  - eapply Forall_impl; [done|]. intros r0.
    apply (closed_at_insert _ _ _ p); auto.
Qed.

(** Assigning a close price. *)
Lemma triple_assign_close (extra : list ref) (r : ref) (c : Q) :
  triple (closed_with extra)
    (assign r (λ p, Position.set_close_price p (Some c)))
    (λ _, closed_with (r :: extra)) history_closed.
Proof.
  intros b Hb.
  pose proof (triple_assign extra r
                (λ p, Position.set_close_price p (Some c))
                (λ _ _, ltac:(by eexists)) b Hb) as H.
  revert H. py_unfold.
  destruct (store b !! r) as [p|] eqn:Hp; simpl; [|done].
  intros [Hh Hex]. split; [done|]. constructor; [|done].
  eexists. split.
  - simpl. apply list_lookup_insert_eq. by eapply lookup_lt_Some.
  - by eexists.
Qed.

Lemma triple_new (p : result Position.t) :
  triple (closed_with []) (new p) (λ _, closed_with []) history_closed.
Proof.
  intros b [Hh _]. py_unfold. destruct p as [p|e]; simpl; [|done].
  split; [|constructor].
  intros n acc r Hn Hr. destruct (Hh n acc r Hn Hr) as (p0 & Hp0 & Hc0).
  exists p0. split; [|done]. simpl. by apply lookup_app_l_Some.
Qed.

Lemma triple_for_each {A} (l : list A) (body : A → Py unit) :
  (∀ x, triple (closed_with []) (body x) (λ _, closed_with [])
          history_closed) →
  triple (closed_with []) (for_each l body) (λ _, closed_with [])
    history_closed.
Proof.
  intros Hbody. induction l as [|x l IH]; simpl.
  - by apply triple_pure.
  - eapply triple_bind; [apply Hbody|]. intros ?. apply IH.
Qed.

Ltac pure_step :=
  eapply triple_bind;
  [apply triple_pure; intros ?; py_unfold;
   repeat (case_match; simplify_eq/=); reflexivity|intros ?].

Lemma triple_close_position a r price :
  triple (closed_with []) (close_position a r price)
    (λ _, closed_with []) history_closed.
Proof.
  unfold close_position.
  pure_step. pure_step. pure_step.
  eapply triple_bind; [apply triple_assign_close|intros ?].
  pure_step.
  eapply triple_bind.
  { destruct (bool_decide _); [|by apply triple_pure].
    pure_step. apply triple_assign. intros p0 _. by eexists. }
  intros ?. pure_step. pure_step.
  eapply triple_bind; [by apply triple_assign|intros ?].
  pure_step.
  destruct (list_remove _ _) as [l'|]; [|by apply triple_raise].
  eapply triple_bind; [apply triple_account_assign; intros acc r0; by left|].
  intros ?.
  eapply triple_bind.
  { apply triple_account_assign. intros acc r0. simpl.
    rewrite elem_of_app. intros [?|?]; auto. }
  intros ?. pure_step. pure_step.
  eapply triple_post.
  - apply triple_account_assign. intros acc r0. by left.
  - intros _ b [Hh _]. split; [done|constructor].
Qed.

Lemma triple_open_position a s ty v sl tp :
  triple (closed_with []) (open_position a s ty v sl tp)
    (λ _, closed_with []) history_closed.
Proof.
  unfold open_position.
  pure_step. pure_step. pure_step. pure_step. pure_step. pure_step.
  pure_step. pure_step. pure_step. pure_step. pure_step. pure_step.
  eapply triple_bind; [apply triple_new|intros ?].
  eapply triple_bind; [apply triple_account_assign; intros acc r0; by left|].
  intros ?.
  eapply triple_bind; [apply triple_account_assign; intros acc r0; by left|].
  intros ?. by apply triple_pure.
Qed.

Lemma triple_exec (op : Op) :
  triple (closed_with []) (exec op) (λ _, closed_with []) history_closed.
Proof.
  destruct op as [n d|n x|a s ty v sl tp|a r price|a s price|]; simpl.
  - intros b [Hh _]. rewrite open_account_eq.
    destruct (accounts b !! n) eqn:Hn; [done|].
    split; [|constructor]. intros n0 acc r. simpl. intros Hn0 Hr.
    destruct (decide (n = n0)) as [<-|Hne].
    + rewrite lookup_insert_eq in Hn0. injection Hn0 as <-.
      by apply elem_of_nil in Hr.
    + rewrite lookup_insert_ne in Hn0 by done. by eapply Hh.
  - unfold deposit_into_account. pure_step. pure_step.
    apply triple_account_assign. intros acc r0. by left.
  - eapply triple_bind; [apply triple_open_position|intros ?].
    by apply triple_pure.
  - apply triple_close_position.
  - eapply triple_bind; [|intros ?; by apply triple_pure].
    unfold close_positions.
    pure_step. pure_step. pure_step. pure_step. pure_step. pure_step.
    eapply triple_bind; [|intros ?; by apply triple_pure].
    apply triple_for_each. intros r. apply triple_close_position.
  - intros b [Hh _]. unfold bind, next_timestep.
    destruct (Market.next_barset (market b)) as [m o]. simpl.
    split; [done|constructor].
Qed.

Lemma exec_history_closed (op : Op) (b b' : t) (res : result unit) :
  history_closed b → exec op b = (b', res) → history_closed b'.
Proof.
  intros Hb He.
  pose proof (triple_exec op b (conj Hb (Forall_nil_2 _))) as H.
  rewrite He in H. destruct res; [by eapply closed_with_history|done].
Qed.

(** X24. What sits in a history is closed.  If every position in every
    account's history has a close price, this stays so along any
    sequence of engine calls, on every path: also when a call raises
    half-way. *)
Theorem histories_hold_closed_positions (ops : list Op) (b : t) :
  history_closed b → Forall history_closed (trace ops b).
Proof.
  revert b. induction ops as [|op ops IH]; intros b Hb; simpl; [constructor|].
  destruct (exec op b) as [b' [[]|e]] eqn:He.
  - pose proof (exec_history_closed _ _ _ _ Hb He).
    constructor; [done|]. by apply IH.
  - constructor; [by eapply exec_history_closed|constructor].
Qed.

Lemma histories_hold_closed_positions_witness :
  Forall history_closed
    (trace (desk_ops ++ [ClosePositions "a" "AAPL" None;
                         ClosePosition "a" 0 (Some 1%Q)]) desk).
Proof.
  apply histories_hold_closed_positions.
  intros n acc r Hn. vm_compute in Hn. discriminate.
Defined.

(** ** What a call on one account can reach *)

Lemma others_kept_trans a b1 b2 b3 :
  others_kept a b1 b2 → others_kept a b2 b3 → others_kept a b1 b3.
Proof. intros H12 H23 n Hn. rewrite H23, H12; done. Qed.

Lemma exec_others_kept (a : string) (op : Op) :
  account_of op = Some a → respects (others_kept a) (exec op).
Proof.
  apply respects_exec.
  - done.
  - apply others_kept_trans.
  - intros b0 acc acc' _ _ _ n Hn. simpl. by rewrite lookup_insert_ne.
  - intros b0 d _ n Hn. simpl. by rewrite lookup_insert_ne.
  - done.
  - done.
Qed.

(** A statement that leaves the state alone keeps any property of it. *)
Lemma triple_keep {A} (P : t → Prop) (c : Py A) :
  (∀ b, fst (c b) = b) → triple P c (λ _, P) P.
Proof.
  intros H b Hb. specialize (H b).
  destruct (c b) as [b1 [x|e]]; simpl in H; by subst b1.
Qed.

Ltac keep_step :=
  eapply triple_bind;
  [apply triple_keep; intros ?; py_unfold;
   repeat (case_match; simplify_eq/=); reflexivity|intros ?].

Lemma writes_within_account_assign S b0 n f :
  triple (writes_within S b0) (account_assign n f)
    (λ _, writes_within S b0) (writes_within S b0).
Proof.
  intros b Hb. py_unfold. by destruct (accounts b !! n).
Qed.

Lemma writes_within_assign S b0 r f :
  r ∈ S →
  triple (writes_within S b0) (assign r f)
    (λ _, writes_within S b0) (writes_within S b0).
Proof.
  intros Hr b Hb. py_unfold.
  destruct (store b !! r) as [p|]; simpl; [|done].
  intros r0 Hr0. simpl.
  rewrite list_lookup_insert_ne by (intros ->; contradiction).
  by apply Hb.
Qed.

(** [close_position] writes into no position but the one it is given. *)
Lemma writes_within_close_position S b0 a r price :
  r ∈ S →
  triple (writes_within S b0) (close_position a r price)
    (λ _, writes_within S b0) (writes_within S b0).
Proof.
  intros Hr. unfold close_position.
  keep_step. keep_step. keep_step.
  eapply triple_bind; [by apply writes_within_assign|intros ?].
  keep_step.
  eapply triple_bind.
  { destruct (bool_decide _); [|by apply triple_keep].
    keep_step. by apply writes_within_assign. }
  intros ?. keep_step. keep_step.
  eapply triple_bind; [by apply writes_within_assign|intros ?].
  keep_step.
  destruct (list_remove _ _) as [l'|]; [|by apply triple_keep].
  eapply triple_bind; [apply writes_within_account_assign|intros ?].
  eapply triple_bind; [apply writes_within_account_assign|intros ?].
  keep_step. keep_step.
  apply writes_within_account_assign.
Qed.

Lemma writes_within_for_each S b0 a price (l : list ref) :
  (∀ r, r ∈ l → r ∈ S) →
  triple (writes_within S b0) (for_each l (λ p, close_position a p price))
    (λ _, writes_within S b0) (writes_within S b0).
Proof.
  induction l as [|r l IH]; intros Hl; simpl.
  - by apply triple_keep.
  - eapply triple_bind.
    + apply writes_within_close_position. apply Hl. constructor.
    + intros ?. apply IH. intros r0 Hr0. apply Hl. by constructor.
Qed.

(** [close_positions] either stops at one of its checks, or runs its
    loop over the account's open positions for the symbol. *)
Lemma close_positions_cases b a s price b' res :
  close_positions a s price b = (b', res) →
  b' = b
  ∨ ∃ acc res',
      accounts b !! a = Some acc
      ∧ for_each (open_for b s acc) (λ p, close_position a p price) b
        = (b', res').
Proof.
  intros H.
  destruct (accounts b !! a) as [acc|] eqn:Ha; cycle 1.
  { left. revert H. py_unfold. rewrite Ha. simpl. congruence. }
  destruct (assets_spread b !! s) as [spread|] eqn:Hs; cycle 1.
  { left. revert H. py_unfold. rewrite Ha; simpl. rewrite Hs. simpl.
    congruence. }
  destruct (Market.curr_barset (market b)) as [row|] eqn:Hr; cycle 1.
  { left. revert H. py_unfold. rewrite Ha; simpl. rewrite Hs; simpl.
    rewrite Hr. simpl. congruence. }
  destruct (columns row !! s) as [bar|] eqn:Hb; cycle 1.
  { left. revert H. py_unfold. rewrite Ha; simpl. rewrite Hs; simpl.
    rewrite Hr; simpl. rewrite Hb. simpl. congruence. }
  right. exists acc.
  rewrite (close_positions_eq _ _ _ _ acc spread row bar) in H by done.
  unfold bind in H.
  destruct (for_each _ _ b) as [b1 [[]|e]]; injection H as <- _; by eexists.
Qed.

(** X9. A call made on one account leaves the record of every other
    account as it was, its cash and the references in its open list and
    in its history, whether the call returns or raises.  The positions
    themselves are shared objects: [open_account],
    [deposit_into_account] and [open_position] leave every existing
    position as it was; [close_position] writes into no position but
    the one it is given, which need not be one of the account's own,
    since no ownership is checked; and [close_positions] writes into no
    position outside the account's own open list for the symbol. *)
Theorem other_accounts_untouched (a : string) (op : Op) (b b' : t)
    (res : result unit) :
  account_of op = Some a →
  exec op b = (b', res) →
  (∀ n, n ≠ a → accounts b' !! n = accounts b !! n)
  ∧ (opens_only op = true →
     ∀ r p, store b !! r = Some p → store b' !! r = Some p)
  ∧ (∀ r price, op = ClosePosition a r price →
     ∀ r0, r0 ≠ r → store b' !! r0 = store b !! r0)
  ∧ (∀ s price acc, op = ClosePositions a s price →
     accounts b !! a = Some acc →
     ∀ r0, r0 ∉ open_for b s acc → store b' !! r0 = store b !! r0).
Proof.
  intros Ha He. split; [exact (exec_others_kept a op Ha _ _ _ He)|].
  split; [intros Hop r p; by apply (open_side_keeps_positions op b b' res)|].
  split.
  - intros r price -> r0 Hr0. simpl in He.
    pose proof (writes_within_close_position [r] b a r price
                  ltac:(constructor) b (λ _ _, eq_refl)) as H.
    rewrite He in H.
    assert (writes_within [r] b b') as Hw by (by destruct res).
    apply Hw. intros Hin. apply list_elem_of_singleton in Hin. done.
  - intros s price acc -> Hacc r0 Hr0. simpl in He. unfold bind in He.
    destruct (close_positions a s price b) as [b1 res1] eqn:Hcp.
    assert (b1 = b') as -> by (destruct res1; by injection He as <- _).
    apply close_positions_cases in Hcp as [->|(acc' & res' & Hacc' & Hloop)];
      [done|].
    rewrite Hacc in Hacc'. injection Hacc' as <-.
    pose proof (writes_within_for_each (open_for b s acc) b a price
                  (open_for b s acc) (λ _ H, H) b (λ _ _, eq_refl)) as H.
    rewrite Hloop in H.
    assert (writes_within (open_for b s acc) b b') as Hw by (by destruct res').
    by apply Hw.
Qed.

Lemma other_accounts_untouched_witness :
  (∀ n, n ≠ "a" →
     accounts (after (desk_ops ++ [ClosePositions "a" "AAPL" None]) desk) !! n
     = accounts (after desk_ops desk) !! n)
  ∧ (opens_only (ClosePositions "a" "AAPL" None) = true →
     ∀ r p, store (after desk_ops desk) !! r = Some p →
            store (after (desk_ops ++ [ClosePositions "a" "AAPL" None]) desk)
              !! r = Some p)
  ∧ (∀ r price,
       ClosePositions "a" "AAPL" None = ClosePosition "a" r price →
       ∀ r0, r0 ≠ r →
         store (after (desk_ops ++ [ClosePositions "a" "AAPL" None]) desk)
           !! r0
         = store (after desk_ops desk) !! r0)
  ∧ (∀ s price acc,
       ClosePositions "a" "AAPL" None = ClosePositions "a" s price →
       accounts (after desk_ops desk) !! "a" = Some acc →
       ∀ r0, r0 ∉ open_for (after desk_ops desk) s acc →
         store (after (desk_ops ++ [ClosePositions "a" "AAPL" None]) desk)
           !! r0
         = store (after desk_ops desk) !! r0).
Proof.
  apply (other_accounts_untouched "a" (ClosePositions "a" "AAPL" None)
           (after desk_ops desk) _ (Ok tt)).
  - reflexivity.
  - vm_compute. reflexivity.
Defined.
